(** * PDF-Combine: the page assembly, the text-overlay editor and the export

    A shallow embedding of [PDFCombine.py].  The program is a PyQt5 window
    holding a list of PDF pages; pages are added from source files, removed,
    moved up and down, annotated with text overlays in an editor dialog, and
    finally exported to one PDF.

    Conventions of the embedding:
    - Python [int] is [Z]; Python [float] is [Q], that is the arithmetic is
      taken exactly and IEEE rounding is not modelled.  [a / b] on floats
      raises [ZeroDivisionError] when [b] is zero, so division is partial.
    - A Python call that may raise returns an [option]; [None] is the raise.
    - [print] appends a message to a log.
    - The libraries the program calls (PyMuPDF, PyPDF2, reportlab, the file
      system) are the fields of the class [World].  A call the program
      guards with [try] may raise there; the calls it leaves unguarded
      (reading the media box, creating and saving the canvas) return. *)

From Stdlib Require Import List ZArith QArith String Bool Lia Permutation.
Import ListNotations.

Local Open Scope string_scope.
Local Open Scope list_scope.
Local Open Scope Z_scope.

(* ------------------------------------------------------------------ *)
(** ** Python primitives *)

(** [a / b] on floats. *)
Definition py_truediv (a b : Q) : option Q :=
  if Qeq_bool b 0 then None else Some (a / b)%Q.

(** [len(l)] as a Python int. *)
Definition py_len {A : Type} (l : list A) : Z := Z.of_nat (List.length l).

(** [seq[index]] as PyPDF2's page list implements it: a negative index
    counts from the end, and an index out of range raises [IndexError]. *)
Definition py_getitem {A : Type} (l : list A) (index : Z) : option A :=
  let index := if index <? 0 then py_len l + index else index in
  if (index <? 0) || (py_len l <=? index) then None
  else nth_error l (Z.to_nat index).

(** [enumerate(l)], counting from [i]. *)
Fixpoint enumerate_from {A : Type} (i : Z) (l : list A) : list (Z * A) :=
  match l with
  | [] => []
  | a :: r => (i, a) :: enumerate_from (i + 1) r
  end.

Definition enumerate {A : Type} (l : list A) : list (Z * A) :=
  enumerate_from 0 l.

(* ------------------------------------------------------------------ *)
(** ** Data model *)

(** A rendered page image ([PIL.Image] and the [QPixmap] made from it). *)
Record Image := { im_width : Z; im_height : Z; im_samples : list Z }.

(** One text overlay: the dict built by [getDirectTexts], with keys
    [text], [x], [y], [font_family], [font_size] and [color]. *)
Record TextData := {
  t_text : string;
  t_x : Q;
  t_y : Q;
  t_font_family : string;
  t_font_size : Z;
  t_color : Q * Q * Q
}.

(** [class PageData]. *)
Record PageData := {
  pdf_path : string;
  page_number : Z;
  pixmap : Image;
  direct_texts : list TextData
}.

(** What the program prints. *)
Inductive Msg : Type :=
| ErrorProcessing (path : string)
| ErrorReading (path : string) (page : Z)
| ErrorDrawing
| ErrorMerging
| Exported (path : string)
| ErrorExporting.

(* ------------------------------------------------------------------ *)
(** ** The editor dialog *)

Record QFont := { family : string; pointSize : Z }.
Record QColor := { red : Z; green : Z; blue : Z }.

(** [class DirectTextItem]: a movable, editable text item. *)
Record DirectTextItem := {
  pos_x : Q;
  pos_y : Q;
  toPlainText : string;
  font : QFont;
  defaultTextColor : QColor
}.

(** The items of the dialog's scene: the page pixmap added by
    [scene.addPixmap] and the text items added by [add_direct_text_item]. *)
Inductive QGraphicsItem : Type :=
| PixmapItem (im : Image)
| TextItem (it : DirectTextItem).

(** [class DirectTextDialog].  [scene] lists the items in the order they
    were added to the scene. *)
Record DirectTextDialog := {
  direct_zoom : Q;
  pdf_width : Q;
  pdf_height : Q;
  scene : list QGraphicsItem
}.

(** [QGraphicsScene.addItem]. *)
Definition scene_addItem (it : QGraphicsItem) (d : DirectTextDialog) : DirectTextDialog :=
  {| direct_zoom := direct_zoom d; pdf_width := pdf_width d;
     pdf_height := pdf_height d; scene := scene d ++ [it] |}.

(** [QGraphicsScene.removeItem], the item being given by its place in the
    order of insertion. *)
Definition scene_removeItem (n : nat) (d : DirectTextDialog) : DirectTextDialog :=
  {| direct_zoom := direct_zoom d; pdf_width := pdf_width d;
     pdf_height := pdf_height d;
     scene := firstn n (scene d) ++ skipn (S n) (scene d) |}.

(** [QGraphicsScene.items()]: Qt returns the items in descending stacking
    order, topmost first.  Items of equal Z value and without a parent, as
    all items of this scene are, stack in the order of insertion, the last
    one added on top. *)
Definition scene_items (d : DirectTextDialog) : list QGraphicsItem :=
  rev (scene d).

(** [DirectTextItem.__init__], placed by [add_direct_text_item]. *)
Definition new_DirectTextItem (text : string) : DirectTextItem :=
  {| pos_x := 0; pos_y := 0; toPlainText := text;
     font := {| family := "Helvetica"%string; pointSize := 12 |};
     defaultTextColor := {| red := 0; green := 0; blue := 0 |} |}.

Definition setPos (px py : Q) (it : DirectTextItem) : DirectTextItem :=
  {| pos_x := px; pos_y := py; toPlainText := toPlainText it;
     font := font it; defaultTextColor := defaultTextColor it |}.

Definition add_direct_text_item (d : DirectTextDialog) : DirectTextDialog :=
  let item := new_DirectTextItem "Double-click to edit"%string in
  let item := setPos 50 50 item in
  scene_addItem (TextItem item) d.

(** The body of the second loop of [getDirectTexts] for one text item. *)
Definition direct_text_of_item (d : DirectTextDialog) (item : DirectTextItem)
  : option TextData :=
  match py_truediv (pos_x item) (direct_zoom d) with
  | None => None
  | Some pdf_x =>
    match py_truediv (pos_y item) (direct_zoom d) with
    | None => None
    | Some q =>
      let pdf_y := (pdf_height d - q)%Q in
      let color := defaultTextColor item in
      let r := (inject_Z (red color) / 255)%Q in
      let g := (inject_Z (green color) / 255)%Q in
      let b := (inject_Z (blue color) / 255)%Q in
      Some {| t_text := toPlainText item;
              t_x := pdf_x;
              t_y := pdf_y;
              t_font_family := family (font item);
              t_font_size := pointSize (font item);
              t_color := (r, g, b) |}
    end
  end.

(** The second loop of [getDirectTexts], [texts] being the list built so
    far. *)
Fixpoint getDirectTexts_loop (d : DirectTextDialog) (its : list QGraphicsItem)
    (texts : list TextData) : option (list TextData) :=
  match its with
  | [] => Some texts
  | PixmapItem _ :: rest => getDirectTexts_loop d rest texts
  | TextItem item :: rest =>
    match direct_text_of_item d item with
    | None => None
    | Some td => getDirectTexts_loop d rest (texts ++ [td])
    end
  end.

(** [DirectTextDialog.getDirectTexts].  The first loop of the source only
    takes the keyboard focus from the item being edited and changes none of
    the fields read here. *)
Definition getDirectTexts (d : DirectTextDialog) : option (list TextData) :=
  getDirectTexts_loop d (scene_items d) [].

(** The text items of a scene in the order they were created. *)
Fixpoint text_items (its : list QGraphicsItem) : list DirectTextItem :=
  match its with
  | [] => []
  | PixmapItem _ :: rest => text_items rest
  | TextItem item :: rest => item :: text_items rest
  end.

(** The coordinate transform as the specification words it:
    [px = sx / zoom] and [py = page_height_pt - sy / zoom]. *)
Definition spec_screen_to_pdf (sx sy zoom page_height_pt : Q) : Q * Q :=
  ((sx / zoom)%Q, (page_height_pt - sy / zoom)%Q).

(** Modelled from the spec: [pdf_to_screen], the inverse transform, which
    the program does not have.  The specification only calls it the exact
    inverse of [screen_to_pdf]; solving [px = sx / zoom] and
    [py = page_height_pt - sy / zoom] for [sx] and [sy] gives this. *)
Definition pdf_to_screen (px py zoom page_height_pt : Q) : Q * Q :=
  ((px * zoom)%Q, ((page_height_pt - py) * zoom)%Q).

(* ------------------------------------------------------------------ *)
(** ** The page list of the main window *)

(** A [QListWidgetItem] carrying its [PageData] under [Qt.UserRole].
    [item_id] stands for the identity of the Python object; the label and
    the icon of the item are display only and are left out. *)
Record QListWidgetItem := { item_id : nat; item_data : PageData }.

(** [QListWidget]: the rows and the current row, [-1] when there is none. *)
Record QListWidget := { items : list QListWidgetItem; currentRow : Z }.

Definition count (w : QListWidget) : Z := py_len (items w).

(** [QListWidget.item(row)]: no item outside the rows. *)
Definition item (w : QListWidget) (row : Z) : option QListWidgetItem :=
  if (row <? 0) || (count w <=? row) then None
  else nth_error (items w) (Z.to_nat row).

(** [QListWidget.row(item)]: the row holding the object, [-1] if none. *)
Fixpoint row_from (i : Z) (l : list QListWidgetItem) (id : nat) : Z :=
  match l with
  | [] => -1
  | it :: rest => if Nat.eqb (item_id it) id then i else row_from (i + 1) rest id
  end.

Definition row (w : QListWidget) (id : nat) : Z := row_from 0 (items w) id.

(** [QListWidget.takeItem(row)]: removes and returns the item of the row,
    or returns nothing for a row that does not exist.  When the current
    item is taken, Qt makes the following item current, or the preceding
    one when there is no following item. *)
Definition takeItem (row : Z) (w : QListWidget)
  : option QListWidgetItem * QListWidget :=
  if (row <? 0) || (count w <=? row) then (None, w)
  else
    let n := Z.to_nat row in
    let cur := currentRow w in
    (nth_error (items w) n,
     {| items := firstn n (items w) ++ skipn (S n) (items w);
        currentRow :=
          if cur <? row then cur
          else if row <? cur then cur - 1
          else if row <? count w - 1 then row else row - 1 |}).

(** [QListWidget.insertItem(row, item)]: the row is clamped to the rows
    that exist, and a null item is ignored. *)
Definition insertItem (row : Z) (it : option QListWidgetItem) (w : QListWidget)
  : QListWidget :=
  match it with
  | None => w
  | Some it =>
    let row := if row <? 0 then 0
               else if count w <? row then count w else row in
    let n := Z.to_nat row in
    let cur := currentRow w in
    {| items := firstn n (items w) ++ it :: skipn n (items w);
       currentRow := if (0 <=? cur) && (row <=? cur) then cur + 1 else cur |}
  end.

(** [QListWidget.addItem(item)]: inserts after the last row. *)
Definition addItem (it : QListWidgetItem) (w : QListWidget) : QListWidget :=
  insertItem (count w) (Some it) w.

(** [QListWidget.setCurrentRow(row)]. *)
Definition setCurrentRow (row : Z) (w : QListWidget) : QListWidget :=
  {| items := items w;
     currentRow := if (0 <=? row) && (row <? count w) then row else -1 |}.

(** [class MainWindow]: the page list, and the counter the embedding uses
    to give each new list item its identity. *)
Record MainWindow := { listWidget : QListWidget; next_id : nat }.

Definition with_listWidget (self : MainWindow) (w : QListWidget) : MainWindow :=
  {| listWidget := w; next_id := next_id self |}.

(** [MainWindow.pil2pixmap]: the image, converted to RGBA. *)
Definition pil2pixmap (im : Image) : Image := im.

(** [MainWindow.remove_selected], [selected_items] being the items that
    [listWidget.selectedItems()] returns. *)
Fixpoint remove_selected_loop (selected_items : list nat) (w : QListWidget)
  : QListWidget :=
  match selected_items with
  | [] => w
  | id :: rest => remove_selected_loop rest (snd (takeItem (row w id) w))
  end.

Definition remove_selected (selected_items : list nat) (self : MainWindow)
  : MainWindow :=
  with_listWidget self (remove_selected_loop selected_items (listWidget self)).

(** The assignment [page_data.direct_texts = texts]: [add_pdf] makes it
    with the empty list, and [open_direct_text_dialog], once the dialog is
    accepted, with the overlays returned by [getDirectTexts]. *)
Definition set_direct_texts (texts : list TextData) (pd : PageData) : PageData :=
  {| pdf_path := pdf_path pd; page_number := page_number pd;
     pixmap := pixmap pd; direct_texts := texts |}.

(** [MainWindow.move_up]. *)
Definition move_up (self : MainWindow) : MainWindow :=
  let w := listWidget self in
  let current_row := currentRow w in
  if 0 <? current_row then
    let (it, w) := takeItem current_row w in
    let w := insertItem (current_row - 1) it w in
    with_listWidget self (setCurrentRow (current_row - 1) w)
  else self.

(** [MainWindow.move_down]. *)
Definition move_down (self : MainWindow) : MainWindow :=
  let w := listWidget self in
  let current_row := currentRow w in
  if (current_row <? count w - 1) && negb (current_row =? -1) then
    let (it, w) := takeItem current_row w in
    let w := insertItem (current_row + 1) it w in
    with_listWidget self (setCurrentRow (current_row + 1) w)
  else self.

(* ------------------------------------------------------------------ *)
(** ** The reportlab canvas *)

(** One string drawn on a canvas, with the font and fill colour in force. *)
Record TextRun := {
  run_font : string * Z;
  run_fill : Q * Q * Q;
  run_x : Q;
  run_y : Q;
  run_text : string
}.

(** [canvas.Canvas]: the page size, the current font and fill colour, and
    the strings drawn so far. *)
Record Canvas := {
  pagesize : Q * Q;
  cur_font : string * Z;
  cur_fill : Q * Q * Q;
  drawn : list TextRun
}.

(** [canvas.Canvas(packet, pagesize=...)]: reportlab starts with
    Helvetica 12 and a black fill. *)
Definition new_Canvas (size : Q * Q) : Canvas :=
  {| pagesize := size; cur_font := ("Helvetica"%string, 12);
     cur_fill := (0, 0, 0)%Q; drawn := [] |}.

(** What [can.save()] leaves in the [BytesIO] packet: a one-page document
    of the page size showing the strings drawn. *)
Record Packet := { pk_pagesize : Q * Q; pk_runs : list TextRun }.

Definition save (can : Canvas) : Packet :=
  {| pk_pagesize := pagesize can; pk_runs := drawn can |}.

(** The state of an export as the specification names it. *)
Inductive ExportState : Type := Idle | Running | Completed | Failed.

(* ------------------------------------------------------------------ *)
(** ** The libraries and the file system *)

Class World := {
  (** a page of a document opened by PyMuPDF *)
  fitz_page : Type;
  (** a PyPDF2 page object *)
  page : Type;
  (** [fitz.open(path)]: the pages, or a raise *)
  fitz_open : string -> option (list fitz_page);
  (** [page.get_pixmap] and [Image.frombytes] at a zoom *)
  get_pixmap : fitz_page -> Q -> option Image;
  (** [PyPDF2.PdfReader(path)]: the pages of the file, or a raise *)
  PdfReader : string -> option (list page);
  (** [page.mediabox.getWidth()] and [getHeight()], in points *)
  mediabox : page -> Q * Q;
  (** whether [can.setFont(family, size)] returns *)
  setFont_ok : string -> Z -> bool;
  (** whether [can.setFillColorRGB(r, g, b)] returns *)
  setFillColorRGB_ok : Q -> Q -> Q -> bool;
  (** whether [can.drawString(x, y, text)] returns in the given font *)
  drawString_ok : string * Z -> Q -> Q -> string -> bool;
  (** [PyPDF2.PdfReader(packet)] on a saved canvas *)
  PdfReader_packet : Packet -> option (list page);
  (** [src_page.merge_page(overlay_page)]: the merged page, or a raise *)
  merge_page : page -> page -> option page;
  (** whether opening the export path and writing the pages succeeds *)
  write : string -> list page -> bool
}.

Section Program.
Context {W : World}.

(* ------------------------------------------------------------------ *)
(** ** Adding the pages of source files *)

(** The loop of [convert_pdf_to_images] over the pages of the document. *)
Fixpoint render_pages (doc : list fitz_page) (zoom : Q) (images : list Image)
  : option (list Image) :=
  match doc with
  | [] => Some images
  | p :: rest =>
    match get_pixmap p zoom with
    | None => None
    | Some img => render_pages rest zoom (images ++ [img])
    end
  end.

(** [convert_pdf_to_images(pdf_path, zoom)]. *)
Definition convert_pdf_to_images (pdf_path : string) (zoom : Q)
  : option (list Image) :=
  match fitz_open pdf_path with
  | None => None
  | Some doc => render_pages doc zoom []
  end.

(** The inner loop of [add_pdf] over [enumerate(pages)]. *)
Fixpoint add_pages (path : string) (pages : list (Z * Image)) (self : MainWindow)
  : MainWindow :=
  match pages with
  | [] => self
  | (i, page_image) :: rest =>
    let qt_pix := pil2pixmap page_image in
    let page_data := {| pdf_path := path; page_number := i;
                        pixmap := qt_pix; direct_texts := [] |} in
    let page_data := set_direct_texts [] page_data in
    let it := {| item_id := next_id self; item_data := page_data |} in
    add_pages path rest
      {| listWidget := addItem it (listWidget self);
         next_id := S (next_id self) |}
  end.

(** [MainWindow.add_pdf], [file_paths] being what the file dialog returns.
    The result is the window and what was printed.  A file that cannot be
    converted adds no item, as the images are all made before the first
    item is added. *)
Fixpoint add_pdf (file_paths : list string) (self : MainWindow)
  : MainWindow * list Msg :=
  match file_paths with
  | [] => (self, [])
  | path :: rest =>
    match convert_pdf_to_images path 1 with
    | Some pages =>
      add_pdf rest (add_pages path (enumerate pages) self)
    | None =>
      let (self', out) := add_pdf rest self in
      (self', ErrorProcessing path :: out)
    end
  end.

(* ------------------------------------------------------------------ *)
(** ** Drawing the overlays of a page *)

(** [can.setFont(family, size)]. *)
Definition setFont (family : string) (size : Z) (can : Canvas) : option Canvas :=
  if setFont_ok family size then
    Some {| pagesize := pagesize can; cur_font := (family, size);
            cur_fill := cur_fill can; drawn := drawn can |}
  else None.

(** [can.setFillColorRGB(r, g, b)]. *)
Definition setFillColorRGB (r g b : Q) (can : Canvas) : option Canvas :=
  if setFillColorRGB_ok r g b then
    Some {| pagesize := pagesize can; cur_font := cur_font can;
            cur_fill := (r, g, b); drawn := drawn can |}
  else None.

(** [can.drawString(x, y, text)]. *)
Definition drawString (x y : Q) (text : string) (can : Canvas) : option Canvas :=
  if drawString_ok (cur_font can) x y text then
    Some {| pagesize := pagesize can; cur_font := cur_font can;
            cur_fill := cur_fill can;
            drawn := drawn can ++
                     [{| run_font := cur_font can; run_fill := cur_fill can;
                         run_x := x; run_y := y; run_text := text |}] |}
  else None.

(** The [try] block drawing one overlay: the canvas as the block leaves
    it, and whether it ran to its end. *)
Definition draw_direct_text (text_data : TextData) (can : Canvas)
  : Canvas * bool :=
  match setFont (t_font_family text_data) (t_font_size text_data) can with
  | None => (can, false)
  | Some can1 =>
    let '(r, g, b) := t_color text_data in
    match setFillColorRGB r g b can1 with
    | None => (can1, false)
    | Some can2 =>
      match drawString (t_x text_data) (t_y text_data) (t_text text_data) can2 with
      | None => (can2, false)
      | Some can3 => (can3, true)
      end
    end
  end.

(** The loop of [export_pdf] over [page_data.direct_texts]; a failed
    overlay prints a message and the loop goes on. *)
Fixpoint draw_direct_texts (texts : list TextData) (can : Canvas)
  : Canvas * list Msg :=
  match texts with
  | [] => (can, [])
  | text_data :: rest =>
    let (can', ok) := draw_direct_text text_data can in
    let (can'', out) := draw_direct_texts rest can' in
    (can'', if ok then out else ErrorDrawing :: out)
  end.

(* ------------------------------------------------------------------ *)
(** ** Export *)

(** The first [try] block of the loop body: open the source and take the
    page. *)
Definition read_src_page (page_data : PageData) : option page :=
  match PdfReader (pdf_path page_data) with
  | None => None
  | Some pages => py_getitem pages (page_number page_data)
  end.

(** The last [try] block of the loop body: read the saved canvas back and
    merge its first page onto the source page. *)
Definition merge_overlay (packet : Packet) (src_page : page) : option page :=
  match PdfReader_packet packet with
  | None => None
  | Some pages =>
    match py_getitem pages 0 with
    | None => None
    | Some overlay_page => merge_page src_page overlay_page
    end
  end.

(** The overlay layer of a page: a canvas of the size of the page's media
    box, the overlays drawn on it in turn, saved into the packet. *)
Definition draw_overlay (page_data : PageData) (src_page : page)
  : Packet * list Msg :=
  let (width, height) := mediabox src_page in
  let can := new_Canvas (width, height) in
  let (can, out) := draw_direct_texts (direct_texts page_data) can in
  (save can, out).

(** The body of the loop of [export_pdf] for one list item: the page handed
    to [output.add_page], or nothing when the loop [continue]s, and what
    was printed. *)
Definition export_page (page_data : PageData) : option page * list Msg :=
  match read_src_page page_data with
  | None =>
    (None, [ErrorReading (pdf_path page_data) (page_number page_data + 1)])
  | Some src_page =>
    match direct_texts page_data with
    | [] => (Some src_page, [])
    | _ :: _ =>
      let (packet, out) := draw_overlay page_data src_page in
      match merge_overlay packet src_page with
      | Some merged => (Some merged, out)
      | None => (Some src_page, out ++ [ErrorMerging])
      end
    end
  end.

(** The loop of [export_pdf] over the rows of the list: the pages of the
    output writer and what was printed. *)
Fixpoint export_pages (rows : list QListWidgetItem) (output : list page)
  : list page * list Msg :=
  match rows with
  | [] => (output, [])
  | it :: rest =>
    let (p, out) := export_page (item_data it) in
    let output := match p with
                  | None => output
                  | Some src_page => output ++ [src_page]
                  end in
    let (output, out') := export_pages rest output in
    (output, out ++ out')
  end.

(** A run of [export_pdf]: the pages added to the output writer, what was
    printed, and whether the file was written. *)
Record ExportResult := {
  output : list page;
  printed : list Msg;
  written : bool
}.

(** [MainWindow.export_pdf], [export_path] being what the save dialog
    returns; nothing is done for an empty path.  The source walks the rows
    by index from [0] to [count() - 1], which is the list of items in
    order. *)
Definition export_pdf (export_path : string) (self : MainWindow)
  : option ExportResult :=
  if String.eqb export_path "" then None
  else
    let (output, out) := export_pages (items (listWidget self)) [] in
    if write export_path output then
      Some {| output := output; printed := out ++ [Exported export_path];
              written := true |}
    else
      Some {| output := output; printed := out ++ [ErrorExporting];
              written := false |}.

(** The export states of the specification read on a run: no run leaves
    the export idle, a written file completes it, a failed write fails it. *)
Definition export_state (r : option ExportResult) : ExportState :=
  match r with
  | None => Idle
  | Some r => if written r then Completed else Failed
  end.

(** The number of pages a run added to the output. *)
Definition pages_added (r : ExportResult) : nat := List.length (output r).

(* ------------------------------------------------------------------ *)
(** ** Notions used in the statements *)

(** The pages one list item contributes to the output: one or none. *)
Definition exported_page (it : QListWidgetItem) : list page :=
  match fst (export_page (item_data it)) with
  | Some p => [p]
  | None => []
  end.

(** Whether the three calls drawing an overlay all return. *)
Definition overlay_draws (td : TextData) : bool :=
  let '(r, g, b) := t_color td in
  setFont_ok (t_font_family td) (t_font_size td)
  && setFillColorRGB_ok r g b
  && drawString_ok (t_font_family td, t_font_size td)
                   (t_x td) (t_y td) (t_text td).

(** The messages the loop prints: one for each overlay that fails. *)
Definition drawing_errors (texts : list TextData) : list Msg :=
  map (fun _ => ErrorDrawing) (filter (fun td => negb (overlay_draws td)) texts).

(** What the loop body prints for one list item. *)
Definition page_messages (it : QListWidgetItem) : list Msg :=
  snd (export_page (item_data it)).

End Program.

(** The string an overlay puts on the canvas when it is drawn. *)
Definition overlay_run (td : TextData) : TextRun :=
  {| run_font := (t_font_family td, t_font_size td);
     run_fill := t_color td;
     run_x := t_x td; run_y := t_y td; run_text := t_text td |}.

(** The current row is a row of the list, or [-1]. *)
Definition valid_rows (self : MainWindow) : Prop :=
  -1 <= currentRow (listWidget self) < count (listWidget self).

(* ------------------------------------------------------------------ *)
(** ** A small world to run the program in

    Two readable files, [a.pdf] of two pages and [b.pdf] of one; every
    other path cannot be opened.  Three fonts are known to the canvas.
    Merging onto the page of [b.pdf] raises, and nothing can be written
    under [/readonly/]. *)

Record DemoPage := { dp_path : string; dp_index : Z; dp_layers : list Packet }.

Definition demo_image : Image :=
  {| im_width := 612; im_height := 792; im_samples := [] |}.

Definition demo_files (path : string) : option (list DemoPage) :=
  if String.eqb path "a.pdf" then
    Some [ {| dp_path := "a.pdf"; dp_index := 0; dp_layers := [] |};
           {| dp_path := "a.pdf"; dp_index := 1; dp_layers := [] |} ]
  else if String.eqb path "b.pdf" then
    Some [ {| dp_path := "b.pdf"; dp_index := 0; dp_layers := [] |} ]
  else None.

#[export] Instance demo_world : World := {|
  fitz_page := DemoPage;
  page := DemoPage;
  fitz_open := demo_files;
  get_pixmap := fun _ _ => Some demo_image;
  PdfReader := demo_files;
  mediabox := fun _ => (612, 792)%Q;
  setFont_ok := fun family _ =>
    String.eqb family "Helvetica" || String.eqb family "Courier"
    || String.eqb family "Times-Roman";
  setFillColorRGB_ok := fun _ _ _ => true;
  drawString_ok := fun _ _ _ _ => true;
  PdfReader_packet := fun pk =>
    Some [ {| dp_path := ""; dp_index := 0; dp_layers := [pk] |} ];
  merge_page := fun src overlay =>
    if String.eqb (dp_path src) "b.pdf" then None
    else Some {| dp_path := dp_path src; dp_index := dp_index src;
                 dp_layers := dp_layers src ++ dp_layers overlay |};
  write := fun path _ => negb (String.prefix "/readonly/" path)
|}.

Definition demo_entry (id : nat) (path : string) (n : Z) (texts : list TextData)
  : QListWidgetItem :=
  {| item_id := id;
     item_data := {| pdf_path := path; page_number := n;
                     pixmap := demo_image; direct_texts := texts |} |}.

Definition demo_window (rows : list QListWidgetItem) (cur : Z) : MainWindow :=
  {| listWidget := {| items := rows; currentRow := cur |};
     next_id := List.length rows |}.

Definition demo_hello : TextData :=
  {| t_text := "Hi"; t_x := 72; t_y := 72; t_font_family := "Helvetica";
     t_font_size := 12; t_color := (0, 0, 0)%Q |}.

Definition demo_unknown_font : TextData :=
  {| t_text := "Lost"; t_x := 10; t_y := 20; t_font_family := "Comic Sans MS";
     t_font_size := 9; t_color := (1, 0, 0)%Q |}.

(** An editor session on a page 792 points high at zoom 2, in which two
    text items were added, edited and moved in turn. *)
Definition demo_dialog : DirectTextDialog :=
  {| direct_zoom := 2; pdf_width := 612; pdf_height := 792;
     scene :=
       [ PixmapItem demo_image;
         TextItem {| pos_x := 100; pos_y := 200; toPlainText := "first";
                     font := {| family := "Helvetica"; pointSize := 12 |};
                     defaultTextColor := {| red := 0; green := 0; blue := 0 |} |};
         TextItem {| pos_x := 300; pos_y := 400; toPlainText := "second";
                     font := {| family := "Courier"; pointSize := 10 |};
                     defaultTextColor := {| red := 255; green := 0; blue := 0 |} |} ]
  |}.

(* ------------------------------------------------------------------ *)
(** ** The context menu of a text item *)

(** What the user does with the menu of [contextMenuEvent]: the font
    dialog returns a font and whether it was accepted, the colour dialog a
    colour or, when cancelled, an invalid colour ([None]); the menu may
    also be dismissed. *)
Inductive MenuAction : Type :=
| ChangeFont (new_font : QFont) (ok : bool)
| ChangeColor (color : option QColor)
| DeleteText
| NoAction.

(** [QGraphicsTextItem.setFont]. *)
Definition item_setFont (f : QFont) (it : DirectTextItem) : DirectTextItem :=
  {| pos_x := pos_x it; pos_y := pos_y it; toPlainText := toPlainText it;
     font := f; defaultTextColor := defaultTextColor it |}.

(** [QGraphicsTextItem.setDefaultTextColor]. *)
Definition setDefaultTextColor (c : QColor) (it : DirectTextItem) : DirectTextItem :=
  {| pos_x := pos_x it; pos_y := pos_y it; toPlainText := toPlainText it;
     font := font it; defaultTextColor := c |}.

(** [QGraphicsTextItem.setPlainText], what editing the item in place does. *)
Definition setPlainText (text : string) (it : DirectTextItem) : DirectTextItem :=
  {| pos_x := pos_x it; pos_y := pos_y it; toPlainText := text;
     font := font it; defaultTextColor := defaultTextColor it |}.

(** An item of the scene changed in place: it keeps its place in the order
    of insertion. *)
Definition scene_update (n : nat) (it : DirectTextItem) (d : DirectTextDialog)
  : DirectTextDialog :=
  {| direct_zoom := direct_zoom d; pdf_width := pdf_width d;
     pdf_height := pdf_height d;
     scene := firstn n (scene d) ++ TextItem it :: skipn (S n) (scene d) |}.

(** [DirectTextItem.contextMenuEvent] on the [n]-th item added to the
    scene; only text items have this menu. *)
Definition contextMenuEvent (n : nat) (action : MenuAction) (d : DirectTextDialog)
  : DirectTextDialog :=
  match nth_error (scene d) n with
  | Some (TextItem it) =>
    match action with
    | ChangeFont new_font ok =>
      if ok then scene_update n (item_setFont new_font it) d else d
    | ChangeColor (Some color) => scene_update n (setDefaultTextColor color it) d
    | ChangeColor None => d
    | DeleteText => scene_removeItem n d
    | NoAction => d
    end
  | _ => d
  end.

(** What happens in the dialog while it is shown: the button adding a text
    is clicked, a text item is dragged to a position or edited in place,
    or the context menu of a text item is used. *)
Inductive EditorEvent : Type :=
| AddTextClicked
| ItemMoved (n : nat) (px py : Q)
| TextEdited (n : nat) (text : string)
| ContextMenu (n : nat) (action : MenuAction).

Definition run_event (d : DirectTextDialog) (e : EditorEvent) : DirectTextDialog :=
  match e with
  | AddTextClicked => add_direct_text_item d
  | ItemMoved n px py =>
    match nth_error (scene d) n with
    | Some (TextItem it) => scene_update n (setPos px py it) d
    | _ => d
    end
  | TextEdited n text =>
    match nth_error (scene d) n with
    | Some (TextItem it) => scene_update n (setPlainText text it) d
    | _ => d
    end
  | ContextMenu n action => contextMenuEvent n action d
  end.

Definition run_events (events : list EditorEvent) (d : DirectTextDialog)
  : DirectTextDialog :=
  fold_left run_event events d.

(* ------------------------------------------------------------------ *)
(** ** The title bar of the dialog *)

(** A C [int], as the coordinates of a [QPoint] are. *)
Definition wrap_int (x : Z) : Z := (x + 2 ^ 31) mod 2 ^ 32 - 2 ^ 31.

(** [QPoint - QPoint]. *)
Definition QPoint_sub (p q : Z * Z) : Z * Z :=
  (wrap_int (fst p - fst q), wrap_int (snd p - snd q)).

(** [Qt.LeftButton]. *)
Definition LeftButton : Z := 1.

(** A point of a desktop: both coordinates below [2 ^ 29] in size. *)
Definition on_desktop (p : Z * Z) : Prop :=
  - 2 ^ 29 <= fst p < 2 ^ 29 /\ - 2 ^ 29 <= snd p < 2 ^ 29.

(** [class DraggableTitleBar]: [_drag_pos], and the top left corner of the
    frame of the window the bar belongs to. *)
Record DraggableTitleBar := {
  drag_pos : option (Z * Z);
  window_topLeft : Z * Z
}.

(** [DraggableTitleBar.mousePressEvent]. *)
Definition mousePressEvent (button : Z) (globalPos : Z * Z) (t : DraggableTitleBar)
  : DraggableTitleBar :=
  if button =? LeftButton then
    {| drag_pos := Some (QPoint_sub globalPos (window_topLeft t));
       window_topLeft := window_topLeft t |}
  else t.

(** [DraggableTitleBar.mouseMoveEvent]; [self.window().move(p)] puts the
    top left corner of the frame at [p]. *)
Definition mouseMoveEvent (buttons : Z) (globalPos : Z * Z) (t : DraggableTitleBar)
  : DraggableTitleBar :=
  match drag_pos t with
  | Some dp =>
    if negb (Z.land buttons LeftButton =? 0) then
      {| drag_pos := Some dp; window_topLeft := QPoint_sub globalPos dp |}
    else t
  | None => t
  end.

(** [DraggableTitleBar.mouseReleaseEvent]. *)
Definition mouseReleaseEvent (t : DraggableTitleBar) : DraggableTitleBar :=
  {| drag_pos := None; window_topLeft := window_topLeft t |}.

(* ------------------------------------------------------------------ *)
(** ** Opening the editor on a page *)

(** What the editor needs of PyMuPDF beyond [World]. *)
Class Rasterizer {W : World} := {
  (** [doc[page_number]]: the page, or a raise *)
  fitz_getitem : list fitz_page -> Z -> option fitz_page;
  (** [page.rect]: width and height in points *)
  rect : fitz_page -> Q * Q
}.

Section Editor.
Context {W : World} {R : Rasterizer}.

(** [convert_pdf_page_to_image(pdf_path, page_number, zoom)]. *)
Definition convert_pdf_page_to_image (pdf_path : string) (page_number : Z) (zoom : Q)
  : option (Image * Q * Q) :=
  match fitz_open pdf_path with
  | None => None
  | Some doc =>
    match fitz_getitem doc page_number with
    | None => None
    | Some p =>
      match get_pixmap p zoom with
      | None => None
      | Some img => Some (img, fst (rect p), snd (rect p))
      end
    end
  end.

(** [DirectTextDialog.__init__]: the scene holds the image of the page
    only. *)
Definition DirectTextDialog_init (pdf_path : string) (page_number : Z)
    (direct_zoom : Q) : option DirectTextDialog :=
  match convert_pdf_page_to_image pdf_path page_number direct_zoom with
  | None => None
  | Some (pil_img, width, height) =>
    Some {| direct_zoom := direct_zoom; pdf_width := width;
            pdf_height := height;
            scene := [PixmapItem (pil2pixmap pil_img)] |}
  end.

(** [item.setData(Qt.UserRole, page_data)] on the item of a row. *)
Definition setData (row : Z) (page_data : PageData) (w : QListWidget)
  : QListWidget :=
  match item w row with
  | None => w
  | Some it =>
    let n := Z.to_nat row in
    {| items := firstn n (items w)
                ++ {| item_id := item_id it; item_data := page_data |}
                   :: skipn (S n) (items w);
       currentRow := currentRow w |}
  end.

(** [MainWindow.open_direct_text_dialog] for the item of a row: [events]
    is what happens while the dialog is shown and [accepted] whether it is
    closed with OK.  A row without item is never double-clicked. *)
Definition open_direct_text_dialog (row : Z) (events : list EditorEvent)
    (accepted : bool) (self : MainWindow) : option MainWindow :=
  match item (listWidget self) row with
  | None => Some self
  | Some it =>
    let page_data := item_data it in
    match DirectTextDialog_init (pdf_path page_data) (page_number page_data) 2 with
    | None => None
    | Some dialog =>
      let dialog := run_events events dialog in
      if accepted then
        match getDirectTexts dialog with
        | None => None
        | Some direct_texts =>
          let page_data := set_direct_texts direct_texts page_data in
          Some (with_listWidget self (setData row page_data (listWidget self)))
        end
      else Some self
    end
  end.

End Editor.

(** The page rectangles of the small world. *)
#[export] Instance demo_rasterizer : Rasterizer (W := demo_world) := {|
  fitz_getitem := fun doc n => py_getitem doc n;
  rect := fun _ => (612, 792)%Q
|}.

(** Whether the source page of an item can be read. *)
Definition readable {W : World} (it : QListWidgetItem) : bool :=
  match read_src_page (item_data it) with
  | Some _ => true
  | None => false
  end.

(** The source page of an item, if it can be read. *)
Definition source_page {W : World} (it : QListWidgetItem) : list page :=
  match read_src_page (item_data it) with
  | Some p => [p]
  | None => []
  end.

(** Whether an item is among the selected ones. *)
Definition is_selected (selected_items : list nat) (it : QListWidgetItem) : bool :=
  existsb (Nat.eqb (item_id it)) selected_items.

(* ================================================================== *)
(** * Properties *)

(* ------------------------------------------------------------------ *)
(** ** Runs in the small world *)

(** Indexing a page list: from the end with a negative index, a raise out
    of range. *)
Example py_getitem_runs :
  py_getitem [10; 20; 30] 0 = Some 10
  /\ py_getitem [10; 20; 30] (-1) = Some 30
  /\ py_getitem [10; 20; 30] 3 = None
  /\ py_getitem [10; 20; 30] (-4) = None.
Proof. repeat split. Qed.

(** Committing the session of [demo_dialog]: at zoom 2 on a page 792
    points high the item at (100, 200) lands at (50, 692). *)
Example getDirectTexts_runs :
  getDirectTexts demo_dialog
  = Some [ {| t_text := "second"; t_x := 300 # 2; t_y := 1184 # 2;
              t_font_family := "Courier"; t_font_size := 10;
              t_color := (255 # 255, 0 # 255, 0 # 255)%Q |};
           {| t_text := "first"; t_x := 100 # 2; t_y := 1384 # 2;
              t_font_family := "Helvetica"; t_font_size := 12;
              t_color := (0 # 255, 0 # 255, 0 # 255)%Q |} ].
Proof. reflexivity. Qed.

(** A zoom of zero makes the division raise. *)
Example getDirectTexts_zero_zoom :
  getDirectTexts {| direct_zoom := 0; pdf_width := 612; pdf_height := 792;
                    scene := scene demo_dialog |} = None.
Proof. reflexivity. Qed.

(** Adding [a.pdf], a file that cannot be opened, and [b.pdf]. *)
Example add_pdf_runs :
  let (self, out) := add_pdf ["a.pdf"; "gone.pdf"; "b.pdf"] (demo_window [] (-1)) in
  items (listWidget self)
  = [demo_entry 0 "a.pdf" 0 []; demo_entry 1 "a.pdf" 1 []; demo_entry 2 "b.pdf" 0 []]
  /\ out = [ErrorProcessing "gone.pdf"].
Proof. split; reflexivity. Qed.

(** Removing the selected items, in whatever order the selection lists
    them. *)
Example remove_selected_runs :
  items (listWidget
           (remove_selected [2%nat; 0%nat]
              (demo_window [demo_entry 0 "a.pdf" 0 []; demo_entry 1 "a.pdf" 1 [];
                            demo_entry 2 "b.pdf" 0 []] 1)))
  = [demo_entry 1 "a.pdf" 1 []].
Proof. reflexivity. Qed.

(** Moving the middle one of three entries down and up. *)
Example move_runs :
  let self := demo_window [demo_entry 0 "a.pdf" 0 []; demo_entry 1 "a.pdf" 1 [];
                           demo_entry 2 "b.pdf" 0 []] 1 in
  move_down self
  = demo_window [demo_entry 0 "a.pdf" 0 []; demo_entry 2 "b.pdf" 0 [];
                 demo_entry 1 "a.pdf" 1 []] 2
  /\ move_up self
     = demo_window [demo_entry 1 "a.pdf" 1 []; demo_entry 0 "a.pdf" 0 [];
                    demo_entry 2 "b.pdf" 0 []] 0.
Proof. split; reflexivity. Qed.

(** Exporting one page with the overlay "Hi" at (72, 72): one page, the
    overlay merged onto it. *)
Example export_pdf_overlay_runs :
  export_pdf "out.pdf" (demo_window [demo_entry 0 "a.pdf" 0 [demo_hello]] 0)
  = Some {| output :=
              [ {| dp_path := "a.pdf"; dp_index := 0;
                   dp_layers :=
                     [ {| pk_pagesize := (612, 792)%Q;
                          pk_runs := [overlay_run demo_hello] |} ] |} ];
            printed := [Exported "out.pdf"];
            written := true |}.
Proof. reflexivity. Qed.

(** Exporting three entries of which the second cannot be read, an
    overlay of the third cannot be drawn and the merge onto the third
    raises; then the same under a path that cannot be written. *)
Example export_pdf_failures_run :
  let self := demo_window [demo_entry 0 "a.pdf" 1 []; demo_entry 1 "gone.pdf" 0 [];
                           demo_entry 2 "b.pdf" 0 [demo_unknown_font; demo_hello]] 0 in
  let pages := [ {| dp_path := "a.pdf"; dp_index := 1; dp_layers := [] |};
                 {| dp_path := "b.pdf"; dp_index := 0; dp_layers := [] |} ] in
  export_pdf "out.pdf" self
  = Some {| output := pages;
            printed := [ErrorReading "gone.pdf" 1; ErrorDrawing; ErrorMerging;
                        Exported "out.pdf"];
            written := true |}
  /\ export_pdf "/readonly/out.pdf" self
     = Some {| output := pages;
               printed := [ErrorReading "gone.pdf" 1; ErrorDrawing; ErrorMerging;
                           ErrorExporting];
               written := false |}
  /\ export_pdf "" self = None.
Proof. repeat split. Qed.

(* ------------------------------------------------------------------ *)
(** ** Lists *)

Lemma firstn_length_app {A : Type} (a b : list A) :
  firstn (List.length a) (a ++ b) = a.
Proof.
  induction a as [|x a IH]; simpl.
  - now destruct b.
  - now rewrite IH.
Qed.

Lemma skipn_length_app {A : Type} (a b : list A) :
  skipn (List.length a) (a ++ b) = b.
Proof. induction a as [|x a IH]; simpl; auto. Qed.

Lemma nth_error_length_app {A : Type} (a b : list A) (x : A) :
  nth_error (a ++ x :: b) (List.length a) = Some x.
Proof. induction a as [|y a IH]; simpl; auto. Qed.

Lemma split_at {A : Type} (l : list A) (n : nat) :
  (n < List.length l)%nat ->
  exists a x b, l = a ++ x :: b /\ List.length a = n.
Proof.
  revert l. induction n as [|n IH]; intros [|y l] Hn; simpl in Hn; try lia.
  - exists [], y, l. split; reflexivity.
  - destruct (IH l) as (a & x & b & -> & Hlen); [lia|].
    exists (y :: a), x, b. split; simpl; congruence.
Qed.

(* ------------------------------------------------------------------ *)
(** ** The editor dialog *)

Lemma py_truediv_pos (a b : Q) : (0 < b)%Q -> py_truediv a b = Some (a / b)%Q.
Proof.
  intros Hb. unfold py_truediv.
  destruct (Qeq_bool b 0) eqn:E; [|reflexivity].
  apply Qeq_bool_iff in E. rewrite E in Hb.
  exfalso. exact (Qlt_irrefl 0 Hb).
Qed.

Lemma text_items_app (a b : list QGraphicsItem) :
  text_items (a ++ b) = text_items a ++ text_items b.
Proof.
  induction a as [|[im|it] a IH]; simpl; auto.
  now rewrite IH.
Qed.

Lemma text_items_rev (l : list QGraphicsItem) :
  text_items (rev l) = rev (text_items l).
Proof.
  induction l as [|[im|it] l IH]; simpl; auto.
  - rewrite text_items_app, IH. simpl. now rewrite app_nil_r.
  - rewrite text_items_app, IH. reflexivity.
Qed.

(** At a positive zoom the loop body returns, with the coordinates
    computed from the position of the item. *)
Lemma direct_text_of_item_pos (d : DirectTextDialog) (it : DirectTextItem) :
  (0 < direct_zoom d)%Q ->
  exists td, direct_text_of_item d it = Some td
    /\ t_x td = (pos_x it / direct_zoom d)%Q
    /\ t_y td = (pdf_height d - pos_y it / direct_zoom d)%Q
    /\ t_text td = toPlainText it.
Proof.
  intros Hz. unfold direct_text_of_item.
  rewrite !py_truediv_pos by assumption.
  eexists. split; [reflexivity|]. simpl. auto.
Qed.

(** The loop appends one overlay per text item, in the order in which it
    walks the items. *)
Lemma getDirectTexts_loop_pos (d : DirectTextDialog) :
  (0 < direct_zoom d)%Q ->
  forall its texts, exists new,
    getDirectTexts_loop d its texts = Some (texts ++ new)
    /\ Forall2 (fun it td => direct_text_of_item d it = Some td)
               (text_items its) new.
Proof.
  intros Hz its. induction its as [|[im|it] its IH]; intros texts; simpl.
  - exists []. rewrite app_nil_r. split; [reflexivity|constructor].
  - apply IH.
  - destruct (direct_text_of_item_pos d it Hz) as (td & Htd & _).
    rewrite Htd.
    destruct (IH (texts ++ [td])) as (new & Hloop & Hall).
    exists (td :: new). split.
    + rewrite Hloop. now rewrite <- app_assoc.
    + constructor; assumption.
Qed.

Lemma getDirectTexts_pos (d : DirectTextDialog) :
  (0 < direct_zoom d)%Q ->
  exists texts,
    getDirectTexts d = Some texts
    /\ Forall2 (fun it td => direct_text_of_item d it = Some td)
               (rev (text_items (scene d))) texts.
Proof.
  intros Hz. unfold getDirectTexts, scene_items.
  destruct (getDirectTexts_loop_pos d Hz (rev (scene d)) []) as (new & H1 & H2).
  exists new. split; [exact H1|]. now rewrite <- text_items_rev.
Qed.

Lemma Forall2_screen_to_pdf (d : DirectTextDialog) :
  (0 < direct_zoom d)%Q ->
  forall its tds,
    Forall2 (fun it td => direct_text_of_item d it = Some td) its tds ->
    map (fun td => (t_x td, t_y td)) tds
    = map (fun it => spec_screen_to_pdf (pos_x it) (pos_y it)
                       (direct_zoom d) (pdf_height d)) its.
Proof.
  intros Hz its tds Hall.
  induction Hall as [|it td its tds Hone _ IH]; simpl; [reflexivity|].
  destruct (direct_text_of_item_pos d it Hz) as (td' & Htd' & Hx & Hy & _).
  assert (td' = td) by congruence. subst td'.
  unfold spec_screen_to_pdf at 1. now rewrite Hx, Hy, IH.
Qed.

(** C3: committing an editor session at a zoom above zero gives every text
    item the coordinates [px = sx / zoom] and [py = page_height_pt - sy / zoom]
    of the specification's [screen_to_pdf], computed from the position
    [(sx, sy)] of the item with the zoom and the page height of the
    session. *)
Theorem getDirectTexts_screen_to_pdf (d : DirectTextDialog) :
  (0 < direct_zoom d)%Q ->
  exists texts,
    getDirectTexts d = Some texts
    /\ map (fun td => (t_x td, t_y td)) texts
       = map (fun it => spec_screen_to_pdf (pos_x it) (pos_y it)
                          (direct_zoom d) (pdf_height d))
             (text_items (scene_items d)).
Proof.
  intros Hz. destruct (getDirectTexts_pos d Hz) as (texts & Hget & Hall).
  exists texts. split; [exact Hget|].
  unfold scene_items. rewrite text_items_rev.
  now apply Forall2_screen_to_pdf.
Qed.

Lemma getDirectTexts_screen_to_pdf_witness :
  (0 < direct_zoom demo_dialog)%Q
  /\ exists texts,
       getDirectTexts demo_dialog = Some texts
       /\ map (fun td => (t_x td, t_y td)) texts
          = map (fun it => spec_screen_to_pdf (pos_x it) (pos_y it)
                             (direct_zoom demo_dialog) (pdf_height demo_dialog))
                (text_items (scene_items demo_dialog)).
Proof.
  split; [reflexivity|].
  apply (getDirectTexts_screen_to_pdf demo_dialog). reflexivity.
Defined.

(** C8: for every position, every zoom above zero and every page height,
    [pdf_to_screen] applied to the coordinates that committing the session
    computes gives the position back. *)
Theorem pdf_to_screen_screen_to_pdf (d : DirectTextDialog) (it : DirectTextItem) :
  (0 < direct_zoom d)%Q ->
  exists td,
    direct_text_of_item d it = Some td
    /\ (fst (pdf_to_screen (t_x td) (t_y td) (direct_zoom d) (pdf_height d))
        == pos_x it)%Q
    /\ (snd (pdf_to_screen (t_x td) (t_y td) (direct_zoom d) (pdf_height d))
        == pos_y it)%Q.
Proof.
  intros Hz.
  destruct (direct_text_of_item_pos d it Hz) as (td & Htd & Hx & Hy & _).
  exists td. split; [exact Htd|].
  assert (Hnz : ~ (direct_zoom d == 0)%Q).
  { intros E. rewrite E in Hz. exact (Qlt_irrefl 0 Hz). }
  unfold pdf_to_screen. simpl. rewrite Hx, Hy. split; field; exact Hnz.
Qed.

Lemma pdf_to_screen_screen_to_pdf_witness :
  (0 < direct_zoom demo_dialog)%Q
  /\ exists td,
       direct_text_of_item demo_dialog (setPos 50 50 (new_DirectTextItem "x"))
       = Some td
       /\ (fst (pdf_to_screen (t_x td) (t_y td) (direct_zoom demo_dialog)
                  (pdf_height demo_dialog)) == 50)%Q
       /\ (snd (pdf_to_screen (t_x td) (t_y td) (direct_zoom demo_dialog)
                  (pdf_height demo_dialog)) == 50)%Q.
Proof.
  split; [reflexivity|].
  apply (pdf_to_screen_screen_to_pdf demo_dialog
           (setPos 50 50 (new_DirectTextItem "x"))).
  reflexivity.
Defined.

(* ------------------------------------------------------------------ *)
(** ** Drawing the overlays *)

Section Drawing.
Context {W : World}.

(** One [try] block: an overlay that draws adds its string, one that does
    not adds nothing; the page size is never touched. *)
Lemma draw_direct_text_spec (td : TextData) (can : Canvas) :
  pagesize (fst (draw_direct_text td can)) = pagesize can
  /\ drawn (fst (draw_direct_text td can))
     = drawn can ++ (if overlay_draws td then [overlay_run td] else [])
  /\ snd (draw_direct_text td can) = overlay_draws td.
Proof.
  unfold draw_direct_text, overlay_draws, overlay_run,
    setFont, setFillColorRGB, drawString.
  destruct (t_color td) as [[r g] b].
  destruct (setFont_ok _ _); simpl;
    [|now rewrite app_nil_r].
  destruct (setFillColorRGB_ok r g b); simpl;
    [|now rewrite app_nil_r].
  destruct (drawString_ok _ _ _ _); simpl; auto.
  now rewrite app_nil_r.
Qed.

(** The loop draws the overlays that can be drawn, in list order. *)
Lemma draw_direct_texts_spec (texts : list TextData) :
  forall can,
    pagesize (fst (draw_direct_texts texts can)) = pagesize can
    /\ drawn (fst (draw_direct_texts texts can))
       = drawn can ++ map overlay_run (filter overlay_draws texts)
    /\ snd (draw_direct_texts texts can) = drawing_errors texts.
Proof.
  unfold drawing_errors.
  induction texts as [|td texts IH]; intros can; simpl.
  - now rewrite app_nil_r.
  - destruct (draw_direct_text_spec td can) as (Hp & Hd & Hok).
    destruct (draw_direct_text td can) as [can' ok]; simpl in *.
    destruct (IH can') as (Hp' & Hd' & Hm').
    destruct (draw_direct_texts texts can') as [can'' out]; simpl in *.
    subst ok. rewrite Hp', Hp, Hd', Hd, Hm'.
    destruct (overlay_draws td); simpl;
      rewrite <- ?app_assoc; auto.
Qed.

Lemma filter_skip {A : Type} (f : A -> bool) (a : list A) (x : A) (b : list A) :
  f x = false -> filter f (a ++ x :: b) = filter f (a ++ b).
Proof.
  intros Hx. rewrite !filter_app. simpl. now rewrite Hx.
Qed.

Lemma save_eq (c1 c2 : Canvas) :
  pagesize c1 = pagesize c2 -> drawn c1 = drawn c2 -> save c1 = save c2.
Proof. unfold save. now intros -> ->. Qed.

End Drawing.

(* ------------------------------------------------------------------ *)
(** ** Export *)

Section Exporting.
Context {W : World}.

(** The loop adds to the output the pages of the items, in the order of
    the rows, and prints their messages in the same order. *)
Lemma export_pages_spec (rows : list QListWidgetItem) :
  forall output,
    export_pages rows output
    = (output ++ flat_map exported_page rows, flat_map page_messages rows).
Proof.
  induction rows as [|it rows IH]; intros output; simpl.
  - now rewrite app_nil_r.
  - unfold exported_page at 1, page_messages at 1.
    destruct (export_page (item_data it)) as [[p|] out]; simpl;
      rewrite IH; rewrite <- ?app_assoc; reflexivity.
Qed.

(** A run with a path given returns a result: the pages of the items, the
    messages, and the outcome of the write. *)
Lemma export_pdf_spec (export_path : string) (self : MainWindow) :
  export_path <> "" ->
  exists r,
    export_pdf export_path self = Some r
    /\ output r = flat_map exported_page (items (listWidget self))
    /\ written r = write export_path (output r)
    /\ printed r
       = flat_map page_messages (items (listWidget self))
         ++ [if written r then Exported export_path else ErrorExporting].
Proof.
  intros Hpath. unfold export_pdf.
  apply String.eqb_neq in Hpath. rewrite Hpath.
  rewrite export_pages_spec. simpl.
  destruct (write export_path _) eqn:Hw; eexists; split; try reflexivity;
    simpl; rewrite ?Hw; auto.
Qed.

(** An item whose source page can be read always puts one page in the
    output, whatever happens to its overlays. *)
Lemma exported_page_readable (it : QListWidgetItem) (src_page : page) :
  read_src_page (item_data it) = Some src_page ->
  exists p, exported_page it = [p].
Proof.
  intros Hread. unfold exported_page, export_page. rewrite Hread.
  destruct (direct_texts (item_data it)); [now exists src_page|].
  destruct (draw_overlay _ _) as [packet out].
  destruct (merge_overlay packet src_page) as [merged|]; simpl; eauto.
Qed.

Lemma exported_page_unreadable (it : QListWidgetItem) :
  read_src_page (item_data it) = None ->
  exported_page it = []
  /\ page_messages it
     = [ErrorReading (pdf_path (item_data it)) (page_number (item_data it) + 1)].
Proof.
  intros Hread. unfold exported_page, page_messages, export_page.
  now rewrite Hread.
Qed.

End Exporting.

(** C1: an item whose source cannot be opened, or whose page index is not
    a page of the source, is skipped: the run still returns a result, its
    output is made of the pages of the other items in their order, the
    failure is printed, and only the final write decides between
    [Completed] and [Failed].  When two readable items remain, the output
    is their two pages in order. *)
Theorem export_pdf_skips_unreadable {W : World}
    (export_path : string) (self : MainWindow)
    (before after : list QListWidgetItem) (it : QListWidgetItem) :
  export_path <> "" ->
  items (listWidget self) = before ++ it :: after ->
  read_src_page (item_data it) = None ->
  exists r,
    export_pdf export_path self = Some r
    /\ output r = flat_map exported_page before ++ flat_map exported_page after
    /\ In (ErrorReading (pdf_path (item_data it))
                        (page_number (item_data it) + 1)) (printed r)
    /\ export_state (Some r)
       = (if write export_path (output r) then Completed else Failed)
    /\ (forall a pa b pb,
          before ++ after = [a; b] ->
          read_src_page (item_data a) = Some pa ->
          read_src_page (item_data b) = Some pb ->
          exists qa qb,
            exported_page a = [qa] /\ exported_page b = [qb]
            /\ output r = [qa; qb]).
Proof.
  intros Hpath Hrows Hread.
  destruct (export_pdf_spec export_path self Hpath) as (r & Hr & Hout & Hw & Hpr).
  destruct (exported_page_unreadable it Hread) as [Hnone Hmsg].
  assert (Hout' : output r
                  = flat_map exported_page before ++ flat_map exported_page after).
  { rewrite Hout, Hrows, flat_map_app. simpl. now rewrite Hnone. }
  exists r. repeat split.
  - exact Hr.
  - exact Hout'.
  - rewrite Hpr, Hrows, flat_map_app. simpl. rewrite Hmsg.
    apply in_or_app. left. apply in_or_app. right. now left.
  - simpl. now rewrite Hw.
  - intros a pa b pb Hab Ha Hb.
    destruct (exported_page_readable a pa Ha) as [qa Hqa].
    destruct (exported_page_readable b pb Hb) as [qb Hqb].
    exists qa, qb. repeat split; try assumption.
    rewrite Hout', <- flat_map_app, Hab. simpl.
    now rewrite Hqa, Hqb.
Qed.

Lemma export_pdf_skips_unreadable_witness :
  let self := demo_window [demo_entry 0 "a.pdf" 0 []; demo_entry 1 "gone.pdf" 0 [];
                           demo_entry 2 "a.pdf" 1 [demo_hello]] 1 in
  let before := [demo_entry 0 "a.pdf" 0 []] in
  let it := demo_entry 1 "gone.pdf" 0 [] in
  let after := [demo_entry 2 "a.pdf" 1 [demo_hello]] in
  "out.pdf" <> ""
  /\ items (listWidget self) = before ++ it :: after
  /\ read_src_page (item_data it) = None
  /\ exists r,
       export_pdf "out.pdf" self = Some r
       /\ output r = flat_map exported_page before ++ flat_map exported_page after
       /\ In (ErrorReading (pdf_path (item_data it))
                           (page_number (item_data it) + 1)) (printed r)
       /\ export_state (Some r)
          = (if write "out.pdf" (output r) then Completed else Failed)
       /\ (forall a pa b pb,
             before ++ after = [a; b] ->
             read_src_page (item_data a) = Some pa ->
             read_src_page (item_data b) = Some pb ->
             exists qa qb,
               exported_page a = [qa] /\ exported_page b = [qb]
               /\ output r = [qa; qb]).
Proof.
  intros self before it after.
  split; [discriminate|]. split; [reflexivity|]. split; [reflexivity|].
  apply (export_pdf_skips_unreadable "out.pdf" self before after it);
    [discriminate | reflexivity | reflexivity].
Defined.

(** C2, as the program has it: a run ends in [Failed] if and only if the
    final write fails, and in [Completed] if and only if the write goes
    through, whatever was printed for single pages and however many pages
    were added to the output. *)
Theorem export_pdf_failed_iff_write_fails {W : World}
    (export_path : string) (self : MainWindow) :
  export_path <> "" ->
  exists r,
    export_pdf export_path self = Some r
    /\ output r = flat_map exported_page (items (listWidget self))
    /\ (export_state (Some r) = Failed <-> write export_path (output r) = false)
    /\ (export_state (Some r) = Completed <-> write export_path (output r) = true).
Proof.
  intros Hpath.
  destruct (export_pdf_spec export_path self Hpath) as (r & Hr & Hout & Hw & _).
  exists r. split; [exact Hr|]. split; [exact Hout|].
  simpl. rewrite <- Hw.
  destruct (written r); split; split; congruence.
Qed.

Lemma export_pdf_failed_iff_write_fails_witness :
  "out.pdf" <> ""
  /\ exists r,
       export_pdf "out.pdf" (demo_window [demo_entry 0 "gone.pdf" 0 []] 0) = Some r
       /\ output r
          = flat_map exported_page
              (items (listWidget (demo_window [demo_entry 0 "gone.pdf" 0 []] 0)))
       /\ (export_state (Some r) = Failed <-> write "out.pdf" (output r) = false)
       /\ (export_state (Some r) = Completed <-> write "out.pdf" (output r) = true).
Proof.
  split; [discriminate|].
  apply (export_pdf_failed_iff_write_fails "out.pdf"
           (demo_window [demo_entry 0 "gone.pdf" 0 []] 0)).
  discriminate.
Defined.

(** C2 fails as stated: exporting an assembly without entries where the
    write goes through adds no page and ends in [Completed], not in
    [Failed]. *)
Lemma export_pdf_empty_assembly_completes :
  exists r,
    export_pdf "out.pdf" (demo_window [] (-1)) = Some r
    /\ pages_added r = 0%nat
    /\ export_state (Some r) = Completed
    /\ ~ (export_state (Some r) = Failed
          <-> (write "out.pdf" (output r) = false \/ pages_added r = 0%nat)).
Proof.
  eexists. split; [reflexivity|]. split; [reflexivity|]. split; [reflexivity|].
  intros [_ H]. specialize (H (or_intror eq_refl)). discriminate H.
Qed.

(** The overlay layer of a page: its size is that of the media box, it
    holds the overlays that draw, in list order, and one message is printed
    for each overlay that does not draw. *)
Lemma draw_overlay_spec {W : World} (page_data : PageData) (src_page : page) :
  draw_overlay page_data src_page
  = ({| pk_pagesize := mediabox src_page;
        pk_runs := map overlay_run (filter overlay_draws (direct_texts page_data)) |},
     drawing_errors (direct_texts page_data)).
Proof.
  unfold draw_overlay.
  destruct (mediabox src_page) as [width height].
  destruct (draw_direct_texts_spec (direct_texts page_data)
              (new_Canvas (width, height))) as (Hp & Hd & Hm).
  destruct (draw_direct_texts _ _) as [can out]. simpl in *.
  unfold save. now rewrite Hp, Hd, Hm.
Qed.

(** C5: when the [try] block drawing an overlay raises, a message is
    printed for it and the loop goes on: the canvas receives the overlays
    before and after it exactly as if the failing one were not in the
    list.  The page of the item is still exported, at its place in the
    output, with a layer holding the other overlays that draw, in list
    order; the message of the failing overlay is among those the run
    prints, between the messages of the overlays before and after it, and
    the run goes on with the items that follow and returns its result. *)
Theorem draw_failure_skips_overlay {W : World}
    (before after : list TextData) (td : TextData) (can0 : Canvas) :
  snd (draw_direct_text td can0) = false ->
  (forall can,
     save (fst (draw_direct_texts (before ++ td :: after) can))
     = save (fst (draw_direct_texts (before ++ after) can))
     /\ drawn (fst (draw_direct_texts (before ++ td :: after) can))
        = drawn can ++ map overlay_run (filter overlay_draws before)
                    ++ map overlay_run (filter overlay_draws after)
     /\ snd (draw_direct_texts (before ++ td :: after) can)
        = drawing_errors before ++ ErrorDrawing :: drawing_errors after)
  /\ (forall export_path self rows_before it rows_after src_page,
        export_path <> "" ->
        items (listWidget self) = rows_before ++ it :: rows_after ->
        direct_texts (item_data it) = before ++ td :: after ->
        read_src_page (item_data it) = Some src_page ->
        let packet :=
          {| pk_pagesize := mediabox src_page;
             pk_runs := map overlay_run (filter overlay_draws before)
                        ++ map overlay_run (filter overlay_draws after) |} in
        let exported :=
          match merge_overlay packet src_page with
          | Some merged => merged
          | None => src_page
          end in
        let messages :=
          drawing_errors before ++ ErrorDrawing :: drawing_errors after
          ++ match merge_overlay packet src_page with
             | Some _ => []
             | None => [ErrorMerging]
             end in
        export_page (item_data it) = (Some exported, messages)
        /\ exists r,
             export_pdf export_path self = Some r
             /\ output r
                = flat_map exported_page rows_before
                  ++ exported :: flat_map exported_page rows_after
             /\ printed r
                = flat_map page_messages rows_before ++ messages
                  ++ flat_map page_messages rows_after
                  ++ [if written r then Exported export_path else ErrorExporting]
             /\ In ErrorDrawing (printed r)).
Proof.
  intros Hraise.
  assert (Hfail : overlay_draws td = false).
  { destruct (draw_direct_text_spec td can0) as (_ & _ & Hok). congruence. }
  assert (Herrors : drawing_errors (before ++ td :: after)
                    = drawing_errors before ++ ErrorDrawing :: drawing_errors after).
  { unfold drawing_errors. rewrite filter_app, map_app. simpl. now rewrite Hfail. }
  split.
  - intros can.
    destruct (draw_direct_texts_spec (before ++ td :: after) can) as (Hp & Hd & Hm).
    destruct (draw_direct_texts_spec (before ++ after) can) as (Hp' & Hd' & _).
    split; [|split].
    + apply save_eq; [congruence|].
      rewrite Hd, Hd'. now rewrite (filter_skip _ _ _ _ Hfail).
    + rewrite Hd, (filter_skip _ _ _ _ Hfail), filter_app, map_app. reflexivity.
    + now rewrite Hm.
  - intros export_path self rows_before it rows_after src_page
      Hpath Hrows Htexts Hread packet exported messages.
    assert (Hpage : export_page (item_data it) = (Some exported, messages)).
    { unfold export_page. rewrite Hread.
      destruct (direct_texts (item_data it)) as [|t0 ts] eqn:E.
      - exfalso. symmetry in Htexts. exact (app_cons_not_nil _ _ _ (eq_sym Htexts)).
      - rewrite draw_overlay_spec, E, Htexts, Herrors.
        rewrite (filter_skip _ _ _ _ Hfail), filter_app, map_app.
        fold packet. subst exported messages.
        destruct (merge_overlay packet src_page) as [merged|].
        + now rewrite app_nil_r.
        + rewrite <- app_assoc. reflexivity. }
    split; [exact Hpage|].
    destruct (export_pdf_spec export_path self Hpath) as (r & Hr & Hout & _ & Hpr).
    assert (Hprinted : printed r
                       = flat_map page_messages rows_before ++ messages
                         ++ flat_map page_messages rows_after
                         ++ [if written r then Exported export_path
                             else ErrorExporting]).
    { rewrite Hpr, Hrows, flat_map_app. cbn [flat_map].
      unfold page_messages at 2. rewrite Hpage. cbn [snd].
      now rewrite <- !app_assoc. }
    exists r. split; [exact Hr|]. split; [|split].
    + rewrite Hout, Hrows, flat_map_app. cbn [flat_map].
      unfold exported_page at 2. now rewrite Hpage.
    + exact Hprinted.
    + rewrite Hprinted. apply in_or_app. right. apply in_or_app. left.
      subst messages. apply in_or_app. right. now left.
Qed.

Lemma draw_failure_skips_overlay_witness :
  let before := [demo_hello] in
  let after := [demo_hello] in
  let td := demo_unknown_font in
  let can0 := new_Canvas (612, 792)%Q in
  snd (draw_direct_text td can0) = false
  /\ (forall can,
        save (fst (draw_direct_texts (before ++ td :: after) can))
        = save (fst (draw_direct_texts (before ++ after) can))
        /\ drawn (fst (draw_direct_texts (before ++ td :: after) can))
           = drawn can ++ map overlay_run (filter overlay_draws before)
                       ++ map overlay_run (filter overlay_draws after)
        /\ snd (draw_direct_texts (before ++ td :: after) can)
           = drawing_errors before ++ ErrorDrawing :: drawing_errors after)
  /\ (forall export_path self rows_before it rows_after src_page,
        export_path <> "" ->
        items (listWidget self) = rows_before ++ it :: rows_after ->
        direct_texts (item_data it) = before ++ td :: after ->
        read_src_page (item_data it) = Some src_page ->
        let packet :=
          {| pk_pagesize := mediabox src_page;
             pk_runs := map overlay_run (filter overlay_draws before)
                        ++ map overlay_run (filter overlay_draws after) |} in
        let exported :=
          match merge_overlay packet src_page with
          | Some merged => merged
          | None => src_page
          end in
        let messages :=
          drawing_errors before ++ ErrorDrawing :: drawing_errors after
          ++ match merge_overlay packet src_page with
             | Some _ => []
             | None => [ErrorMerging]
             end in
        export_page (item_data it) = (Some exported, messages)
        /\ exists r,
             export_pdf export_path self = Some r
             /\ output r
                = flat_map exported_page rows_before
                  ++ exported :: flat_map exported_page rows_after
             /\ printed r
                = flat_map page_messages rows_before ++ messages
                  ++ flat_map page_messages rows_after
                  ++ [if written r then Exported export_path else ErrorExporting]
             /\ In ErrorDrawing (printed r)).
Proof.
  intros before after td can0. split; [reflexivity|].
  apply (draw_failure_skips_overlay before after td can0). reflexivity.
Defined.

(** In the small world: of the three overlays of a page the second cannot
    be drawn; the page is exported with the two others on its layer, in
    their order, and the run prints one message for the failing overlay. *)
Example draw_failure_run :
  export_pdf "out.pdf"
    (demo_window [demo_entry 0 "a.pdf" 0 [];
                  demo_entry 1 "a.pdf" 1 [demo_hello; demo_unknown_font; demo_hello]] 0)
  = Some {| output :=
              [ {| dp_path := "a.pdf"; dp_index := 0; dp_layers := [] |};
                {| dp_path := "a.pdf"; dp_index := 1;
                   dp_layers :=
                     [ {| pk_pagesize := (612, 792)%Q;
                          pk_runs := [overlay_run demo_hello;
                                      overlay_run demo_hello] |} ] |} ];
            printed := [ErrorDrawing; Exported "out.pdf"];
            written := true |}.
Proof. reflexivity. Qed.

(** C9: when reading the overlay document back or merging it onto the
    source page raises, a message is printed and the source page itself,
    as it was read, is added to the output at the place of the item. *)
Theorem merge_failure_keeps_page {W : World}
    (it : QListWidgetItem) (src_page : page) :
  read_src_page (item_data it) = Some src_page ->
  direct_texts (item_data it) <> [] ->
  merge_overlay (fst (draw_overlay (item_data it) src_page)) src_page = None ->
  export_page (item_data it)
  = (Some src_page, snd (draw_overlay (item_data it) src_page) ++ [ErrorMerging])
  /\ (forall export_path self before after,
        export_path <> "" ->
        items (listWidget self) = before ++ it :: after ->
        exists r,
          export_pdf export_path self = Some r
          /\ output r = flat_map exported_page before
                        ++ src_page :: flat_map exported_page after).
Proof.
  intros Hread Htexts Hmerge.
  assert (Hpage : export_page (item_data it)
                  = (Some src_page,
                     snd (draw_overlay (item_data it) src_page) ++ [ErrorMerging])).
  { unfold export_page. rewrite Hread.
    destruct (direct_texts (item_data it)) eqn:E; [congruence|].
    destruct (draw_overlay (item_data it) src_page) as [packet out].
    simpl in *. now rewrite Hmerge. }
  split; [exact Hpage|].
  intros export_path self before after Hpath Hrows.
  destruct (export_pdf_spec export_path self Hpath) as (r & Hr & Hout & _).
  exists r. split; [exact Hr|].
  rewrite Hout, Hrows, flat_map_app. simpl.
  unfold exported_page at 2. now rewrite Hpage.
Qed.

Lemma merge_failure_keeps_page_witness :
  let it := demo_entry 3 "b.pdf" 0 [demo_hello] in
  let src_page := {| dp_path := "b.pdf"; dp_index := 0; dp_layers := [] |} in
  read_src_page (item_data it) = Some src_page
  /\ direct_texts (item_data it) <> []
  /\ merge_overlay (fst (draw_overlay (item_data it) src_page)) src_page = None
  /\ export_page (item_data it)
     = (Some src_page, snd (draw_overlay (item_data it) src_page) ++ [ErrorMerging])
  /\ (forall export_path self before after,
        export_path <> "" ->
        items (listWidget self) = before ++ it :: after ->
        exists r,
          export_pdf export_path self = Some r
          /\ output r = flat_map exported_page before
                        ++ src_page :: flat_map exported_page after).
Proof.
  intros it src_page.
  split; [reflexivity|]. split; [discriminate|]. split; [reflexivity|].
  apply (merge_failure_keeps_page (W:=demo_world) it src_page);
    [reflexivity | discriminate | reflexivity].
Defined.






(* ------------------------------------------------------------------ *)
(** ** The page list *)

Lemma py_len_app {A : Type} (a b : list A) : py_len (a ++ b) = py_len a + py_len b.
Proof. unfold py_len. rewrite length_app. lia. Qed.

Lemma py_len_cons {A : Type} (x : A) (l : list A) : py_len (x :: l) = py_len l + 1.
Proof. unfold py_len. simpl. lia. Qed.

Lemma py_len_nonneg {A : Type} (l : list A) : 0 <= py_len l.
Proof. unfold py_len. lia. Qed.

Lemma to_nat_py_len {A : Type} (l : list A) : Z.to_nat (py_len l) = List.length l.
Proof. unfold py_len. apply Nat2Z.id. Qed.

Lemma skipn_S_length_app {A : Type} (a b : list A) (x : A) :
  skipn (S (List.length a)) (a ++ x :: b) = b.
Proof. induction a as [|y a IH]; simpl; auto. Qed.

(** Taking the item after [a] out of [a ++ x :: b]. *)
Lemma takeItem_split (a b : list QListWidgetItem) (x : QListWidgetItem) (cur : Z) :
  exists cur',
    takeItem (py_len a) {| items := a ++ x :: b; currentRow := cur |}
    = (Some x, {| items := a ++ b; currentRow := cur' |}).
Proof.
  pose proof (py_len_nonneg a). pose proof (py_len_nonneg b).
  assert (Hin : (py_len a <? 0) || (py_len (a ++ x :: b) <=? py_len a) = false).
  { rewrite py_len_app, py_len_cons. apply orb_false_iff.
    split; [apply Z.ltb_ge | apply Z.leb_gt]; lia. }
  unfold takeItem, count. cbn [items currentRow]. rewrite Hin.
  rewrite to_nat_py_len, nth_error_length_app, firstn_length_app,
    skipn_S_length_app.
  eexists. reflexivity.
Qed.

(** Inserting an item after [a] into [a ++ b]. *)
Lemma insertItem_split (a b : list QListWidgetItem) (x : QListWidgetItem) (cur : Z) :
  exists cur',
    insertItem (py_len a) (Some x) {| items := a ++ b; currentRow := cur |}
    = {| items := a ++ x :: b; currentRow := cur' |}.
Proof.
  unfold insertItem, count. simpl.
  rewrite py_len_app.
  pose proof (py_len_nonneg a). pose proof (py_len_nonneg b).
  destruct (Z.ltb_spec (py_len a) 0); [lia|].
  destruct (Z.ltb_spec (py_len a + py_len b) (py_len a)); [lia|].
  rewrite to_nat_py_len, firstn_length_app, skipn_length_app.
  eexists. reflexivity.
Qed.

Lemma setCurrentRow_valid (r : Z) (w : QListWidget) :
  0 <= r < count w ->
  setCurrentRow r w = {| items := items w; currentRow := r |}.
Proof.
  intros [H0 H1]. unfold setCurrentRow.
  apply Z.leb_le in H0. apply Z.ltb_lt in H1. now rewrite H0, H1.
Qed.

(** [move_down] on a window whose current item [x] has a successor [y]. *)
Lemma move_down_split (a b : list QListWidgetItem) (x y : QListWidgetItem) (n : nat) :
  move_down {| listWidget := {| items := a ++ x :: y :: b; currentRow := py_len a |};
               next_id := n |}
  = {| listWidget := {| items := a ++ y :: x :: b; currentRow := py_len a + 1 |};
       next_id := n |}.
Proof.
  pose proof (py_len_nonneg a). pose proof (py_len_nonneg b).
  assert (Hguard : (py_len a <? py_len (a ++ x :: y :: b) - 1)
                   && negb (py_len a =? -1) = true).
  { rewrite py_len_app, !py_len_cons. apply andb_true_iff. split.
    - apply Z.ltb_lt. lia.
    - apply negb_true_iff, Z.eqb_neq. lia. }
  unfold move_down, count. cbn [listWidget currentRow items]. rewrite Hguard.
  destruct (takeItem_split a (y :: b) x (py_len a)) as [c1 ->].
  replace (py_len a + 1) with (py_len (a ++ [y]))
    by (rewrite py_len_app, py_len_cons; reflexivity).
  change (a ++ y :: b) with (a ++ [y] ++ b). rewrite app_assoc.
  destruct (insertItem_split (a ++ [y]) b x c1) as [c2 ->].
  rewrite setCurrentRow_valid.
  - unfold with_listWidget. cbn [items next_id].
    rewrite <- app_assoc. reflexivity.
  - unfold count. cbn [items]. rewrite !py_len_app, !py_len_cons.
    pose proof (py_len_nonneg (@nil QListWidgetItem)). lia.
Qed.

(** [move_up] on a window whose current item [x] has a predecessor [y]. *)
Lemma move_up_split (a b : list QListWidgetItem) (x y : QListWidgetItem) (n : nat) :
  move_up {| listWidget := {| items := a ++ y :: x :: b; currentRow := py_len a + 1 |};
             next_id := n |}
  = {| listWidget := {| items := a ++ x :: y :: b; currentRow := py_len a |};
       next_id := n |}.
Proof.
  pose proof (py_len_nonneg a). pose proof (py_len_nonneg b).
  assert (Hguard : (0 <? py_len a + 1) = true) by (apply Z.ltb_lt; lia).
  unfold move_up. cbn [listWidget currentRow]. rewrite Hguard.
  replace (py_len a + 1 - 1) with (py_len a) by lia.
  replace (py_len a + 1) with (py_len (a ++ [y]))
    by (rewrite py_len_app, py_len_cons; reflexivity).
  change (a ++ y :: x :: b) with (a ++ [y] ++ x :: b). rewrite app_assoc.
  destruct (takeItem_split (a ++ [y]) b x (py_len (a ++ [y]))) as [c1 ->].
  rewrite <- (app_assoc a [y] b).
  destruct (insertItem_split a ([y] ++ b) x c1) as [c2 ->].
  rewrite setCurrentRow_valid.
  - reflexivity.
  - unfold count. cbn [items]. rewrite !py_len_app, !py_len_cons.
    pose proof (py_len_nonneg ([y] ++ b)). lia.
Qed.

(** Taking an item out and inserting what was taken, at whatever rows,
    keeps the items of the list. *)
Lemma takeItem_insertItem_Permutation (r m : Z) (w : QListWidget) :
  Permutation
    (items (insertItem m (fst (takeItem r w)) (snd (takeItem r w))))
    (items w).
Proof.
  destruct w as [l cur]. unfold takeItem, count. cbn [items currentRow].
  destruct ((r <? 0) || (py_len l <=? r)) eqn:Hout; cbn [fst snd];
    [reflexivity|].
  apply orb_false_iff in Hout. destruct Hout as [H0 H1].
  apply Z.ltb_ge in H0. apply Z.leb_gt in H1. unfold py_len in H1.
  destruct (nth_error l (Z.to_nat r)) as [x|] eqn:Hnth.
  - destruct (nth_error_split _ _ Hnth) as (a & b & -> & Hlen).
    rewrite <- Hlen, firstn_length_app, skipn_S_length_app.
    unfold insertItem. cbn [items].
    set (k := Z.to_nat _).
    rewrite <- !Permutation_middle.
    constructor. now rewrite firstn_skipn.
  - apply nth_error_None in Hnth. lia.
Qed.

Lemma move_up_Permutation (self : MainWindow) :
  Permutation (items (listWidget (move_up self))) (items (listWidget self)).
Proof.
  unfold move_up. destruct (0 <? _); [|reflexivity].
  pose proof (takeItem_insertItem_Permutation
                (currentRow (listWidget self))
                (currentRow (listWidget self) - 1) (listWidget self)) as HP.
  destruct (takeItem _ _) as [it w]. exact HP.
Qed.

Lemma move_down_Permutation (self : MainWindow) :
  Permutation (items (listWidget (move_down self))) (items (listWidget self)).
Proof.
  unfold move_down. destruct (_ && _); [|reflexivity].
  pose proof (takeItem_insertItem_Permutation
                (currentRow (listWidget self))
                (currentRow (listWidget self) + 1) (listWidget self)) as HP.
  destruct (takeItem _ _) as [it w]. exact HP.
Qed.

(** [move_up] does nothing without a current row or on the first row. *)
Lemma move_up_blocked (self : MainWindow) :
  currentRow (listWidget self) <= 0 -> move_up self = self.
Proof.
  intros H. unfold move_up.
  apply Z.ltb_ge in H. now rewrite H.
Qed.

(** [move_down] does nothing without a current row or on the last row. *)
Lemma move_down_blocked (self : MainWindow) :
  currentRow (listWidget self) = -1
  \/ count (listWidget self) - 1 <= currentRow (listWidget self) ->
  move_down self = self.
Proof.
  intros H. unfold move_down.
  destruct H as [H|H].
  - rewrite H. simpl. now rewrite andb_false_r.
  - apply Z.ltb_ge in H. now rewrite H.
Qed.

(** A window whose current row has a successor. *)
Lemma current_row_has_next (self : MainWindow) :
  0 <= currentRow (listWidget self) < count (listWidget self) - 1 ->
  exists a x y b,
    self = {| listWidget := {| items := a ++ x :: y :: b; currentRow := py_len a |};
              next_id := next_id self |}.
Proof.
  destruct self as [[l r] n]. unfold count, py_len. simpl. intros Hr.
  destruct (split_at l (Z.to_nat r)) as (a & x & b & -> & Hlen); [lia|].
  destruct b as [|y b].
  - rewrite length_app in Hr. simpl in Hr. lia.
  - exists a, x, y, b. rewrite Hlen, Z2Nat.id by lia. reflexivity.
Qed.

(** A window whose current row has a predecessor. *)
Lemma current_row_has_previous (self : MainWindow) :
  0 < currentRow (listWidget self) < count (listWidget self) ->
  exists a y x b,
    self = {| listWidget := {| items := a ++ y :: x :: b;
                               currentRow := py_len a + 1 |};
              next_id := next_id self |}.
Proof.
  destruct self as [[l r] n]. unfold count, py_len. simpl. intros Hr.
  destruct (split_at l (Z.to_nat (r - 1))) as (a & y & b & -> & Hlen); [lia|].
  destruct b as [|x b].
  - rewrite length_app in Hr. simpl in Hr. lia.
  - exists a, y, x, b. rewrite Hlen, Z2Nat.id by lia.
    replace (r - 1 + 1) with r by lia. reflexivity.
Qed.

Lemma item_split (a b : list QListWidgetItem) (x : QListWidgetItem) (cur : Z) :
  item {| items := a ++ x :: b; currentRow := cur |} (py_len a) = Some x.
Proof.
  pose proof (py_len_nonneg a). pose proof (py_len_nonneg b).
  unfold item, count. cbn [items].
  assert (Hin : (py_len a <? 0) || (py_len (a ++ x :: b) <=? py_len a) = false).
  { rewrite py_len_app, py_len_cons. apply orb_false_iff.
    split; [apply Z.ltb_ge | apply Z.leb_gt]; lia. }
  rewrite Hin, to_nat_py_len. apply nth_error_length_app.
Qed.

(** C6, as the program has it: moving the current entry up or down keeps
    the entries of the list and changes their order only; the entry goes
    one row up or down and stays within the rows of the list; on the first
    row moving up, and on the last row moving down, does nothing; and
    moving the current entry down and then up gives the window back,
    unless the entry is on the last row of a list of two or more entries. *)
Theorem move_up_down_reorders (self : MainWindow) :
  valid_rows self ->
  Permutation (items (listWidget (move_up self))) (items (listWidget self))
  /\ Permutation (items (listWidget (move_down self))) (items (listWidget self))
  /\ valid_rows (move_up self)
  /\ valid_rows (move_down self)
  /\ (0 < currentRow (listWidget self) ->
      currentRow (listWidget (move_up self)) = currentRow (listWidget self) - 1
      /\ item (listWidget (move_up self)) (currentRow (listWidget self) - 1)
         = item (listWidget self) (currentRow (listWidget self)))
  /\ (0 <= currentRow (listWidget self) < count (listWidget self) - 1 ->
      currentRow (listWidget (move_down self)) = currentRow (listWidget self) + 1
      /\ item (listWidget (move_down self)) (currentRow (listWidget self) + 1)
         = item (listWidget self) (currentRow (listWidget self)))
  /\ (currentRow (listWidget self) = 0 -> move_up self = self)
  /\ (currentRow (listWidget self) = count (listWidget self) - 1 ->
      move_down self = self)
  /\ (currentRow (listWidget self) < count (listWidget self) - 1
      \/ count (listWidget self) <= 1 ->
      move_up (move_down self) = self).
Proof.
  intros Hvalid. unfold valid_rows in *.
  assert (Hup : 0 < currentRow (listWidget self) ->
                exists a y x b,
                  self = {| listWidget := {| items := a ++ y :: x :: b;
                                             currentRow := py_len a + 1 |};
                            next_id := next_id self |})
    by (intros; apply current_row_has_previous; lia).
  assert (Hdown : 0 <= currentRow (listWidget self) < count (listWidget self) - 1 ->
                  exists a x y b,
                    self = {| listWidget := {| items := a ++ x :: y :: b;
                                               currentRow := py_len a |};
                              next_id := next_id self |})
    by (apply current_row_has_next).
  split; [apply move_up_Permutation|].
  split; [apply move_down_Permutation|].
  split; [|split; [|split; [|split; [|split; [|split]]]]].
  - destruct (Z.lt_ge_cases 0 (currentRow (listWidget self))) as [Hpos|Hle].
    + destruct (Hup Hpos) as (a & y & x & b & ->).
      rewrite move_up_split. unfold count. cbn [listWidget items currentRow].
      rewrite py_len_app, !py_len_cons.
      pose proof (py_len_nonneg a). pose proof (py_len_nonneg b). lia.
    + now rewrite move_up_blocked.
  - destruct (Z.lt_ge_cases (currentRow (listWidget self))
                            (count (listWidget self) - 1)) as [Hlt|Hge].
    + destruct (Z.eq_dec (currentRow (listWidget self)) (-1)) as [Hnone|Hsome].
      * rewrite move_down_blocked; auto.
      * destruct Hdown as (a & x & y & b & ->); [lia|].
        rewrite move_down_split. unfold count. cbn [listWidget items currentRow].
        rewrite py_len_app, !py_len_cons.
        pose proof (py_len_nonneg a). pose proof (py_len_nonneg b). lia.
    + rewrite move_down_blocked; auto.
  - intros Hpos. destruct (Hup Hpos) as (a & y & x & b & ->).
    rewrite move_up_split. cbn [listWidget currentRow].
    split; [lia|].
    replace (py_len a + 1 - 1) with (py_len a) by lia.
    rewrite item_split.
    replace (py_len a + 1) with (py_len (a ++ [y]))
      by (rewrite py_len_app, py_len_cons; reflexivity).
    change (a ++ y :: x :: b) with (a ++ [y] ++ x :: b).
    rewrite app_assoc. now rewrite item_split.
  - intros Hrow. destruct (Hdown Hrow) as (a & x & y & b & ->).
    rewrite move_down_split. cbn [listWidget currentRow].
    split; [reflexivity|].
    rewrite (item_split a (y :: b) x).
    replace (py_len a + 1) with (py_len (a ++ [y]))
      by (rewrite py_len_app, py_len_cons; reflexivity).
    change (a ++ y :: x :: b) with (a ++ [y] ++ x :: b).
    rewrite app_assoc. now rewrite item_split.
  - intros H0. apply move_up_blocked. lia.
  - intros Hlast. apply move_down_blocked. right. lia.
  - intros Hcond.
    destruct (Z.eq_dec (currentRow (listWidget self)) (-1)) as [Hnone|Hsome].
    + rewrite move_down_blocked by auto. apply move_up_blocked. lia.
    + destruct (Z.lt_ge_cases (currentRow (listWidget self))
                              (count (listWidget self) - 1)) as [Hlt|Hge].
      * destruct Hdown as (a & x & y & b & ->); [lia|].
        rewrite move_down_split. apply move_up_split.
      * rewrite move_down_blocked by auto. apply move_up_blocked. lia.
Qed.

Lemma move_up_down_reorders_witness :
  let self := demo_window [demo_entry 0 "a.pdf" 0 []; demo_entry 1 "a.pdf" 1 [demo_hello];
                           demo_entry 2 "b.pdf" 0 []] 1 in
  valid_rows self
  /\ Permutation (items (listWidget (move_up self))) (items (listWidget self))
  /\ Permutation (items (listWidget (move_down self))) (items (listWidget self))
  /\ valid_rows (move_up self)
  /\ valid_rows (move_down self)
  /\ (0 < currentRow (listWidget self) ->
      currentRow (listWidget (move_up self)) = currentRow (listWidget self) - 1
      /\ item (listWidget (move_up self)) (currentRow (listWidget self) - 1)
         = item (listWidget self) (currentRow (listWidget self)))
  /\ (0 <= currentRow (listWidget self) < count (listWidget self) - 1 ->
      currentRow (listWidget (move_down self)) = currentRow (listWidget self) + 1
      /\ item (listWidget (move_down self)) (currentRow (listWidget self) + 1)
         = item (listWidget self) (currentRow (listWidget self)))
  /\ (currentRow (listWidget self) = 0 -> move_up self = self)
  /\ (currentRow (listWidget self) = count (listWidget self) - 1 ->
      move_down self = self)
  /\ (currentRow (listWidget self) < count (listWidget self) - 1
      \/ count (listWidget self) <= 1 ->
      move_up (move_down self) = self).
Proof.
  intros self.
  assert (Hvalid : valid_rows self)
    by (subst self; unfold valid_rows, count, py_len; simpl; lia).
  split; [exact Hvalid|].
  exact (move_up_down_reorders self Hvalid).
Defined.

(** C6 fails as stated: on the last of two rows moving down does nothing,
    and moving up afterwards exchanges the two entries. *)
Lemma move_down_up_on_last_row :
  let self := demo_window [demo_entry 0 "a.pdf" 0 []; demo_entry 1 "a.pdf" 1 []] 1 in
  valid_rows self
  /\ move_down self = self
  /\ items (listWidget (move_up (move_down self)))
     = [demo_entry 1 "a.pdf" 1 []; demo_entry 0 "a.pdf" 0 []]
  /\ items (listWidget (move_up (move_down self))) <> items (listWidget self).
Proof.
  intros self.
  split; [subst self; unfold valid_rows, count, py_len; simpl; lia|].
  split; [reflexivity|]. split; [reflexivity|].
  simpl. discriminate.
Qed.

(** C10: without a current row both moves leave the window, and so the
    sequence of entries, unchanged; so does moving up on the first row and
    moving down on the last row. *)
Theorem move_without_row_or_at_boundary (self : MainWindow) :
  (currentRow (listWidget self) = -1 ->
   move_up self = self /\ move_down self = self)
  /\ (currentRow (listWidget self) = 0 -> move_up self = self)
  /\ (currentRow (listWidget self) = count (listWidget self) - 1 ->
      move_down self = self).
Proof.
  split; [|split].
  - intros Hnone. split.
    + apply move_up_blocked. lia.
    + apply move_down_blocked. now left.
  - intros Hfirst. apply move_up_blocked. lia.
  - intros Hlast. apply move_down_blocked. right. lia.
Qed.

Lemma move_without_row_or_at_boundary_witness :
  let self := demo_window [demo_entry 0 "a.pdf" 0 []; demo_entry 1 "a.pdf" 1 []] (-1) in
  currentRow (listWidget self) = -1
  /\ move_up self = self /\ move_down self = self.
Proof.
  intros self. split; [reflexivity|].
  apply (proj1 (move_without_row_or_at_boundary self)). reflexivity.
Defined.

(* ------------------------------------------------------------------ *)
(** ** Adding pages *)

Section Adding.
Context {W : World}.

Lemma render_pages_length (zoom : Q) (doc : list fitz_page) :
  forall images pages,
    render_pages doc zoom images = Some pages ->
    List.length pages = (List.length images + List.length doc)%nat.
Proof.
  induction doc as [|p doc IH]; intros images pages; simpl.
  - intros [= <-]. lia.
  - destruct (get_pixmap p zoom) as [img|]; [|discriminate].
    intros Hrest. apply IH in Hrest. rewrite Hrest, length_app. simpl. lia.
Qed.

Lemma addItem_items (it : QListWidgetItem) (w : QListWidget) :
  items (addItem it w) = items w ++ [it].
Proof.
  destruct w as [l cur]. unfold addItem.
  replace (count {| items := l; currentRow := cur |}) with (py_len l)
    by reflexivity.
  rewrite <- (app_nil_r l) at 2.
  destruct (insertItem_split l [] it cur) as [cur' ->]. reflexivity.
Qed.

(** The inner loop of [add_pdf] appends one item per image, numbered from
    the number of the first, and each without overlays. *)
Lemma add_pages_spec (path : string) (images : list Image) :
  forall i self,
  exists new,
    items (listWidget (add_pages path (enumerate_from i images) self))
    = items (listWidget self) ++ new
    /\ map (fun it => page_number (item_data it)) new
       = map (fun k => i + Z.of_nat k) (seq 0 (List.length images))
    /\ map (fun it => pixmap (item_data it)) new = images
    /\ Forall (fun it => pdf_path (item_data it) = path
                         /\ direct_texts (item_data it) = []) new.
Proof.
  induction images as [|img images IH]; intros i self; simpl.
  - exists []. rewrite app_nil_r. repeat split. constructor.
  - match goal with
    | |- context [add_pages path _ ?s] => destruct (IH (i + 1) s) as (new & Hit & Hnum & Hpix & Hall)
    end.
    eexists (_ :: new). split; [|split; [|split]].
    + rewrite Hit. cbn [listWidget]. rewrite addItem_items, <- app_assoc.
      reflexivity.
    + simpl. rewrite Hnum, <- seq_shift, map_map. f_equal; [lia|].
      apply map_ext. intros k. lia.
    + simpl. now rewrite Hpix.
    + constructor; [|exact Hall]. split; reflexivity.
Qed.

(** [add_pdf] on one readable file. *)
Lemma add_pdf_single (path : string) (doc : list fitz_page) (pages : list Image)
    (self : MainWindow) :
  fitz_open path = Some doc ->
  convert_pdf_to_images path 1 = Some pages ->
  exists new,
    items (listWidget (fst (add_pdf [path] self))) = items (listWidget self) ++ new
    /\ List.length new = List.length doc
    /\ map (fun it => page_number (item_data it)) new
       = map Z.of_nat (seq 0 (List.length doc))
    /\ Forall (fun it => pdf_path (item_data it) = path
                         /\ direct_texts (item_data it) = []) new
    /\ snd (add_pdf [path] self) = [].
Proof.
  intros Hopen Hconv.
  assert (Hlen : List.length pages = List.length doc).
  { unfold convert_pdf_to_images in Hconv. rewrite Hopen in Hconv.
    now apply render_pages_length in Hconv. }
  simpl. rewrite Hconv. simpl. unfold enumerate.
  destruct (add_pages_spec path pages 0 self) as (new & Hit & Hnum & Hpix & Hall).
  exists new. split; [exact Hit|].
  split; [now rewrite <- Hlen, <- Hpix, length_map|].
  split; [now rewrite Hnum, Hlen|].
  split; [exact Hall | reflexivity].
Qed.

End Adding.

(** C7: adding a readable source of [n] pages appends exactly [n] entries
    to the list, with the page numbers [0] to [n-1] in this order, each of
    the source just added and each without overlays; the same holds after
    entries were removed, whatever overlays the removed entries had. *)
Theorem add_pdf_appends_pages {W : World}
    (path : string) (doc : list fitz_page) (pages : list Image) :
  fitz_open path = Some doc ->
  convert_pdf_to_images path 1 = Some pages ->
  forall (self : MainWindow) (selected_items : list nat),
    (exists new,
       items (listWidget (fst (add_pdf [path] self)))
       = items (listWidget self) ++ new
       /\ List.length new = List.length doc
       /\ map (fun it => page_number (item_data it)) new
          = map Z.of_nat (seq 0 (List.length doc))
       /\ Forall (fun it => pdf_path (item_data it) = path
                            /\ direct_texts (item_data it) = []) new
       /\ snd (add_pdf [path] self) = [])
    /\ (exists new,
          items (listWidget (fst (add_pdf [path] (remove_selected selected_items self))))
          = items (listWidget (remove_selected selected_items self)) ++ new
          /\ List.length new = List.length doc
          /\ map (fun it => page_number (item_data it)) new
             = map Z.of_nat (seq 0 (List.length doc))
          /\ Forall (fun it => pdf_path (item_data it) = path
                               /\ direct_texts (item_data it) = []) new).
Proof.
  intros Hopen Hconv self selected_items. split.
  - exact (add_pdf_single path doc pages self Hopen Hconv).
  - destruct (add_pdf_single path doc pages
                (remove_selected selected_items self) Hopen Hconv)
      as (new & H1 & H2 & H3 & H4 & _).
    exists new. auto.
Qed.

Lemma add_pdf_appends_pages_witness :
  let doc := [ {| dp_path := "a.pdf"; dp_index := 0; dp_layers := [] |};
               {| dp_path := "a.pdf"; dp_index := 1; dp_layers := [] |} ] in
  let pages := [demo_image; demo_image] in
  let path := "a.pdf" in
  fitz_open path = Some doc
  /\ convert_pdf_to_images path 1 = Some pages
  /\ forall (self : MainWindow) (selected_items : list nat),
       (exists new,
          items (listWidget (fst (add_pdf [path] self)))
          = items (listWidget self) ++ new
          /\ List.length new = List.length doc
          /\ map (fun it => page_number (item_data it)) new
             = map Z.of_nat (seq 0 (List.length doc))
          /\ Forall (fun it => pdf_path (item_data it) = path
                               /\ direct_texts (item_data it) = []) new
          /\ snd (add_pdf [path] self) = [])
       /\ (exists new,
             items (listWidget (fst (add_pdf [path] (remove_selected selected_items self))))
             = items (listWidget (remove_selected selected_items self)) ++ new
             /\ List.length new = List.length doc
             /\ map (fun it => page_number (item_data it)) new
                = map Z.of_nat (seq 0 (List.length doc))
             /\ Forall (fun it => pdf_path (item_data it) = path
                                  /\ direct_texts (item_data it) = []) new).
Proof.
  intros doc pages path.
  split; [reflexivity|]. split; [reflexivity|].
  apply (add_pdf_appends_pages (W:=demo_world) path doc pages); reflexivity.
Defined.

(* ================================================================== *)
(** * Further properties of the program *)

(* ------------------------------------------------------------------ *)
(** ** Removing the selected entries *)

Lemma row_from_absent (l : list QListWidgetItem) (id : nat) :
  (forall it, In it l -> item_id it <> id) ->
  forall i, row_from i l id = -1.
Proof.
  induction l as [|x l IH]; intros Habs i; simpl; [reflexivity|].
  destruct (Nat.eqb_spec (item_id x) id) as [E|_].
  - exfalso. apply (Habs x); [now left | exact E].
  - apply IH. intros it Hin. apply Habs. now right.
Qed.

Lemma row_from_found (a b : list QListWidgetItem) (x : QListWidgetItem) :
  (forall it, In it a -> item_id it <> item_id x) ->
  forall i, row_from i (a ++ x :: b) (item_id x) = i + py_len a.
Proof.
  induction a as [|y a IH]; intros Habs i; simpl.
  - rewrite Nat.eqb_refl. unfold py_len. simpl. lia.
  - destruct (Nat.eqb_spec (item_id y) (item_id x)) as [E|_].
    + exfalso. apply (Habs y); [now left | exact E].
    + rewrite IH by (intros it Hin; apply Habs; now right).
      rewrite py_len_cons. lia.
Qed.

Lemma takeItem_no_row (w : QListWidget) : takeItem (-1) w = (None, w).
Proof. reflexivity. Qed.

Lemma is_selected_cons (id : nat) (rest : list nat) (it : QListWidgetItem) :
  is_selected (id :: rest) it = Nat.eqb (item_id it) id || is_selected rest it.
Proof. reflexivity. Qed.

(** The loop of [remove_selected] on a list whose items are distinct
    objects. *)
Lemma remove_selected_loop_filter (selected_items : list nat) :
  forall w,
    NoDup (map item_id (items w)) ->
    items (remove_selected_loop selected_items w)
    = filter (fun it => negb (is_selected selected_items it)) (items w).
Proof.
  induction selected_items as [|id rest IH]; intros w Hnd; simpl.
  - symmetry. apply forallb_filter_id. now apply forallb_forall.
  - destruct (in_dec Nat.eq_dec id (map item_id (items w))) as [Hin|Hout].
    + apply in_map_iff in Hin. destruct Hin as (x & Hx & Hin).
      apply in_split in Hin. destruct Hin as (a & b & Hl).
      destruct w as [l cur]. simpl in *. subst l id.
      rewrite map_app in Hnd. simpl in Hnd.
      pose proof (NoDup_remove_1 _ _ _ Hnd) as Hnd'.
      pose proof (NoDup_remove_2 _ _ _ Hnd) as Hfresh.
      assert (Ha : forall it, In it a -> item_id it <> item_id x).
      { intros it Hit E. apply Hfresh, in_or_app. left.
        rewrite <- E. now apply in_map. }
      assert (Hb : forall it, In it b -> item_id it <> item_id x).
      { intros it Hit E. apply Hfresh, in_or_app. right.
        rewrite <- E. now apply in_map. }
      unfold row. cbn [items]. rewrite row_from_found by exact Ha.
      destruct (takeItem_split a b x cur) as [cur' Htake].
      simpl (0 + py_len a). rewrite Htake. cbn [snd].
      rewrite IH by (cbn [items]; now rewrite map_app).
      cbn [items]. rewrite !filter_app. simpl.
      rewrite Nat.eqb_refl. simpl. f_equal.
      * apply filter_ext_in. intros it Hit.
        destruct (Nat.eqb_spec (item_id it) (item_id x)) as [E|_]; [|reflexivity].
        now apply Ha in Hit.
      * apply filter_ext_in. intros it Hit.
        destruct (Nat.eqb_spec (item_id it) (item_id x)) as [E|_]; [|reflexivity].
        now apply Hb in Hit.
    + unfold row. rewrite row_from_absent.
      * rewrite takeItem_no_row. cbn [snd]. rewrite IH by exact Hnd.
        apply filter_ext_in. intros it Hit.
        destruct (Nat.eqb_spec (item_id it) id) as [E|_]; [|reflexivity].
        exfalso. apply Hout. rewrite <- E. now apply in_map.
      * intros it Hit E. apply Hout. rewrite <- E. now apply in_map.
Qed.

(** X1: [remove_selected] removes exactly the selected entries: the
    entries left are those not selected, in the order they had, whatever
    the order in which the selection lists its items. *)
Theorem remove_selected_keeps_the_rest (selected_items : list nat) (self : MainWindow) :
  NoDup (map item_id (items (listWidget self))) ->
  items (listWidget (remove_selected selected_items self))
  = filter (fun it => negb (is_selected selected_items it))
           (items (listWidget self)).
Proof.
  intros Hnd. unfold remove_selected. cbn [with_listWidget listWidget].
  now apply remove_selected_loop_filter.
Qed.

Lemma remove_selected_keeps_the_rest_witness :
  let self := demo_window [demo_entry 0 "a.pdf" 0 []; demo_entry 1 "a.pdf" 1 [demo_hello];
                           demo_entry 2 "b.pdf" 0 []; demo_entry 3 "a.pdf" 0 []] 2 in
  NoDup (map item_id (items (listWidget self)))
  /\ items (listWidget (remove_selected [3%nat; 0%nat] self))
     = filter (fun it => negb (is_selected [3%nat; 0%nat] it))
              (items (listWidget self)).
Proof.
  intros self.
  assert (Hnd : NoDup (map item_id (items (listWidget self)))).
  { simpl. repeat constructor; simpl; intuition lia. }
  split; [exact Hnd|].
  exact (remove_selected_keeps_the_rest [3%nat; 0%nat] self Hnd).
Defined.

(** X2: removing items that are not in the list, or removing nothing,
    leaves the window as it is, current row included. *)
Theorem remove_selected_absent (selected_items : list nat) (self : MainWindow) :
  (forall it, In it (items (listWidget self)) ->
              is_selected selected_items it = false) ->
  remove_selected selected_items self = self.
Proof.
  intros Habs. destruct self as [w n]. unfold remove_selected, with_listWidget.
  cbn [listWidget next_id] in *. f_equal.
  induction selected_items as [|id rest IH]; simpl; [reflexivity|].
  unfold row. rewrite row_from_absent.
  - rewrite takeItem_no_row. apply IH. intros it Hit.
    specialize (Habs it Hit). rewrite is_selected_cons in Habs.
    now apply orb_false_iff in Habs.
  - intros it Hit E. specialize (Habs it Hit).
    rewrite is_selected_cons in Habs. apply orb_false_iff in Habs.
    destruct Habs as [Hne _]. apply Nat.eqb_neq in Hne. contradiction.
Qed.

Lemma remove_selected_absent_witness :
  let self := demo_window [demo_entry 0 "a.pdf" 0 []; demo_entry 1 "a.pdf" 1 []] 1 in
  (forall it, In it (items (listWidget self)) -> is_selected [5%nat; 7%nat] it = false)
  /\ remove_selected [5%nat; 7%nat] self = self.
Proof.
  intros self.
  assert (Habs : forall it, In it (items (listWidget self)) ->
                            is_selected [5%nat; 7%nat] it = false).
  { intros it [<-|[<-|[]]]; reflexivity. }
  split; [exact Habs|].
  exact (remove_selected_absent [5%nat; 7%nat] self Habs).
Defined.

(* ------------------------------------------------------------------ *)
(** ** Converting and adding source files *)

Section AddingFiles.
Context {W : World}.

Lemma render_pages_iff (zoom : Q) (doc : list fitz_page) :
  forall images pages,
    render_pages doc zoom images = Some pages
    <-> exists new,
          pages = images ++ new
          /\ Forall2 (fun p img => get_pixmap p zoom = Some img) doc new.
Proof.
  induction doc as [|p doc IH]; intros images pages; simpl.
  - split.
    + intros [= <-]. exists []. rewrite app_nil_r. split; [reflexivity|constructor].
    + intros (new & -> & Hall). inversion Hall. now rewrite app_nil_r.
  - destruct (get_pixmap p zoom) as [img|] eqn:Hp.
    + rewrite IH. split.
      * intros (new & -> & Hall). exists (img :: new).
        rewrite <- app_assoc. split; [reflexivity|]. now constructor.
      * intros (new & -> & Hall). inversion Hall as [|? img' ? new' Himg Hrest]; subst.
        assert (img' = img) by congruence. subst img'.
        exists new'. rewrite <- app_assoc. split; [reflexivity|assumption].
    + split; [discriminate|].
      intros (new & _ & Hall). inversion Hall; congruence.
Qed.

Lemma add_pdf_app (before after : list string) :
  forall self,
    add_pdf (before ++ after) self
    = (fst (add_pdf after (fst (add_pdf before self))),
       snd (add_pdf before self)
       ++ snd (add_pdf after (fst (add_pdf before self)))).
Proof.
  induction before as [|path before IH]; intros self; simpl.
  - now destruct (add_pdf after self).
  - destruct (convert_pdf_to_images path 1) as [pages|].
    + apply IH.
    + rewrite IH. destruct (add_pdf before self) as [self' out]. reflexivity.
Qed.

Lemma add_pdf_unreadable (path : string) (self : MainWindow) :
  convert_pdf_to_images path 1 = None ->
  add_pdf [path] self = (self, [ErrorProcessing path]).
Proof. intros H. simpl. now rewrite H. Qed.

End AddingFiles.

(** X3: [convert_pdf_to_images] returns exactly when the file opens and
    every page renders, and then gives one image per page, in the order
    of the pages. *)
Theorem convert_pdf_to_images_iff {W : World}
    (pdf_path : string) (zoom : Q) (images : list Image) :
  convert_pdf_to_images pdf_path zoom = Some images
  <-> exists doc,
        fitz_open pdf_path = Some doc
        /\ Forall2 (fun p img => get_pixmap p zoom = Some img) doc images.
Proof.
  unfold convert_pdf_to_images.
  destruct (fitz_open pdf_path) as [doc|].
  - rewrite render_pages_iff. split.
    + intros (new & -> & Hall). now exists doc.
    + intros (doc' & [= <-] & Hall). now exists images.
  - split; [discriminate|]. intros (doc & Hopen & _). discriminate.
Qed.

(** X4: a file that cannot be converted adds nothing to the list: the
    window is the one obtained from the other files alone, and one
    message is printed for the file, between those of the files before
    and after it. *)
Theorem add_pdf_skips_unreadable_file {W : World}
    (before after : list string) (path : string) (self : MainWindow) :
  convert_pdf_to_images path 1 = None ->
  fst (add_pdf (before ++ path :: after) self) = fst (add_pdf (before ++ after) self)
  /\ snd (add_pdf (before ++ path :: after) self)
     = snd (add_pdf before self)
       ++ ErrorProcessing path
          :: snd (add_pdf after (fst (add_pdf before self))).
Proof.
  intros Hconv.
  rewrite (add_pdf_app before (path :: after)), (add_pdf_app before after).
  cbn [fst snd].
  change (path :: after) with ([path] ++ after).
  rewrite (add_pdf_app [path] after), (add_pdf_unreadable path _ Hconv).
  cbn [fst snd]. split; reflexivity.
Qed.

Lemma add_pdf_skips_unreadable_file_witness :
  let self := demo_window [] (-1) in
  convert_pdf_to_images "gone.pdf" 1 = None
  /\ fst (add_pdf (["a.pdf"] ++ "gone.pdf" :: ["b.pdf"]) self)
     = fst (add_pdf (["a.pdf"] ++ ["b.pdf"]) self)
  /\ snd (add_pdf (["a.pdf"] ++ "gone.pdf" :: ["b.pdf"]) self)
     = snd (add_pdf ["a.pdf"] self)
       ++ ErrorProcessing "gone.pdf"
          :: snd (add_pdf ["b.pdf"] (fst (add_pdf ["a.pdf"] self))).
Proof.
  intros self. split; [reflexivity|].
  apply (add_pdf_skips_unreadable_file (W:=demo_world) ["a.pdf"] ["b.pdf"] "gone.pdf" self).
  reflexivity.
Defined.

(** X5: [add_pdf] never touches the entries the list already has: they
    stay first, in their order and with their overlays; every entry it
    appends is a page of one of the files given and has no overlays. *)
Theorem add_pdf_keeps_entries {W : World} (file_paths : list string) :
  forall self : MainWindow,
  exists new,
    items (listWidget (fst (add_pdf file_paths self)))
    = items (listWidget self) ++ new
    /\ Forall (fun it => In (pdf_path (item_data it)) file_paths
                         /\ direct_texts (item_data it) = []) new.
Proof.
  induction file_paths as [|path rest IH]; intros self; simpl.
  - exists []. rewrite app_nil_r. split; [reflexivity|constructor].
  - destruct (convert_pdf_to_images path 1) as [pages|].
    + destruct (add_pages_spec path pages 0 self) as (new1 & H1 & _ & _ & Hall1).
      destruct (IH (add_pages path (enumerate pages) self)) as (new2 & H2 & Hall2).
      exists (new1 ++ new2). split.
      * rewrite H2. unfold enumerate. rewrite H1. now rewrite app_assoc.
      * apply Forall_app. split.
        -- eapply Forall_impl; [|exact Hall1]. simpl.
           intros it [Hp Ht]. split; [now left | exact Ht].
        -- eapply Forall_impl; [|exact Hall2]. simpl.
           intros it [Hp Ht]. split; [now right | exact Ht].
    + destruct (IH self) as (new & H & Hall).
      destruct (add_pdf rest self) as [self' out]. simpl in *.
      exists new. split; [exact H|].
      eapply Forall_impl; [|exact Hall]. simpl.
      intros it [Hp Ht]. split; [now right | exact Ht].
Qed.

(* ------------------------------------------------------------------ *)
(** ** Committing the editor *)

Lemma py_truediv_None (a b : Q) : py_truediv a b = None <-> (b == 0)%Q.
Proof.
  unfold py_truediv. destruct (Qeq_bool b 0) eqn:E.
  - apply Qeq_bool_iff in E. tauto.
  - split; [discriminate|]. intros H. apply Qeq_bool_iff in H. congruence.
Qed.

Lemma direct_text_of_item_None (d : DirectTextDialog) (it : DirectTextItem) :
  direct_text_of_item d it = None <-> (direct_zoom d == 0)%Q.
Proof.
  unfold direct_text_of_item.
  destruct (py_truediv (pos_x it) (direct_zoom d)) eqn:Ex.
  - destruct (py_truediv (pos_y it) (direct_zoom d)) eqn:Ey.
    + split; [discriminate|]. intros Hz.
      apply (py_truediv_None (pos_x it)) in Hz. congruence.
    + apply py_truediv_None in Ey. tauto.
  - apply py_truediv_None in Ex. tauto.
Qed.

Lemma getDirectTexts_loop_None (d : DirectTextDialog) (its : list QGraphicsItem) :
  forall texts,
    getDirectTexts_loop d its texts = None
    <-> (direct_zoom d == 0)%Q /\ text_items its <> [].
Proof.
  induction its as [|[im|it] its IH]; intros texts; simpl.
  - split; [discriminate|]. intros [_ H]. now contradiction H.
  - apply IH.
  - destruct (direct_text_of_item d it) as [td|] eqn:E.
    + rewrite IH. split.
      * intros [Hz _]. split; [exact Hz|discriminate].
      * intros [Hz _]. apply (direct_text_of_item_None d it) in Hz. congruence.
    + apply direct_text_of_item_None in E. split; [|reflexivity].
      intros _. split; [exact E|discriminate].
Qed.

Lemma text_items_scene_items (d : DirectTextDialog) :
  text_items (scene_items d) = [] <-> text_items (scene d) = [].
Proof.
  unfold scene_items. rewrite text_items_rev. split; intros H.
  - apply (f_equal (@rev _)) in H. now rewrite rev_involutive in H.
  - now rewrite H.
Qed.

Lemma getDirectTexts_no_text (d : DirectTextDialog) :
  text_items (scene d) = [] -> getDirectTexts d = Some [].
Proof.
  intros Hnone. apply text_items_scene_items in Hnone. revert Hnone.
  unfold getDirectTexts. generalize (scene_items d). intros its.
  induction its as [|[im|it] its IH]; simpl; auto. discriminate.
Qed.

(** X6: committing the editor raises exactly when the zoom is zero and
    the scene holds at least one text item; a scene without text items
    commits to the empty list at any zoom. *)
Theorem getDirectTexts_raises_iff (d : DirectTextDialog) :
  (getDirectTexts d = None
   <-> (direct_zoom d == 0)%Q /\ text_items (scene d) <> [])
  /\ (text_items (scene d) = [] -> getDirectTexts d = Some []).
Proof.
  split.
  - unfold getDirectTexts. rewrite getDirectTexts_loop_None.
    now rewrite (text_items_scene_items d).
  - apply getDirectTexts_no_text.
Qed.

(** X7: the overlay made of a text item carries its text, font family
    and point size unchanged, and its colour with every channel between 0
    and 1, the channels of a [QColor] being between 0 and 255. *)
Theorem direct_text_of_item_fields (d : DirectTextDialog) (it : DirectTextItem)
    (td : TextData) :
  direct_text_of_item d it = Some td ->
  0 <= red (defaultTextColor it) <= 255 ->
  0 <= green (defaultTextColor it) <= 255 ->
  0 <= blue (defaultTextColor it) <= 255 ->
  t_text td = toPlainText it
  /\ t_font_family td = family (font it)
  /\ t_font_size td = pointSize (font it)
  /\ (0 <= fst (fst (t_color td)) <= 1)%Q
  /\ (0 <= snd (fst (t_color td)) <= 1)%Q
  /\ (0 <= snd (t_color td) <= 1)%Q.
Proof.
  unfold direct_text_of_item. intros Htd Hr Hg Hb.
  destruct (py_truediv (pos_x it) (direct_zoom d)); [|discriminate].
  destruct (py_truediv (pos_y it) (direct_zoom d)); [|discriminate].
  injection Htd as <-. cbn [t_text t_font_family t_font_size t_color fst snd].
  repeat split; unfold Qle; simpl; lia.
Qed.

Lemma direct_text_of_item_fields_witness :
  let it := setDefaultTextColor {| red := 255; green := 128; blue := 0 |}
              (setPos 100 200 (new_DirectTextItem "note")) in
  let td := {| t_text := "note"; t_x := 100 # 2; t_y := 1384 # 2;
               t_font_family := "Helvetica"; t_font_size := 12;
               t_color := (255 # 255, 128 # 255, 0 # 255)%Q |} in
  direct_text_of_item demo_dialog it = Some td
  /\ 0 <= red (defaultTextColor it) <= 255
  /\ 0 <= green (defaultTextColor it) <= 255
  /\ 0 <= blue (defaultTextColor it) <= 255
  /\ t_text td = toPlainText it
  /\ t_font_family td = family (font it)
  /\ t_font_size td = pointSize (font it)
  /\ (0 <= fst (fst (t_color td)) <= 1)%Q
  /\ (0 <= snd (fst (t_color td)) <= 1)%Q
  /\ (0 <= snd (t_color td) <= 1)%Q.
Proof.
  intros it td.
  split; [reflexivity|]. split; [simpl; lia|]. split; [simpl; lia|].
  split; [simpl; lia|].
  apply (direct_text_of_item_fields demo_dialog it td);
    [reflexivity | simpl; lia | simpl; lia | simpl; lia].
Defined.

(* ------------------------------------------------------------------ *)
(** ** The context menu of a text item *)

Lemma Forall2_Some_functional {A B : Type} (f : A -> option B) (l : list A) :
  forall l1 l2,
    Forall2 (fun a b => f a = Some b) l l1 ->
    Forall2 (fun a b => f a = Some b) l l2 ->
    l1 = l2.
Proof.
  induction l as [|a l IH]; intros l1 l2 H1 H2;
    inversion H1; inversion H2; subst; [reflexivity|].
  f_equal; [congruence | now apply IH].
Qed.

Lemma direct_text_of_item_ext (d d' : DirectTextDialog) (it : DirectTextItem) :
  direct_zoom d' = direct_zoom d -> pdf_height d' = pdf_height d ->
  direct_text_of_item d' it = direct_text_of_item d it.
Proof. intros Hz Hh. unfold direct_text_of_item. now rewrite Hz, Hh. Qed.

(** Committing a scene read as the items before a text item, the text
    item, and the items after it. *)
Lemma getDirectTexts_split (d : DirectTextDialog)
    (a b : list QGraphicsItem) (it : DirectTextItem) :
  scene d = a ++ TextItem it :: b ->
  (0 < direct_zoom d)%Q ->
  exists ta tb td,
    getDirectTexts d = Some (tb ++ td :: ta)
    /\ direct_text_of_item d it = Some td
    /\ Forall2 (fun i t => direct_text_of_item d i = Some t) (rev (text_items a)) ta
    /\ Forall2 (fun i t => direct_text_of_item d i = Some t) (rev (text_items b)) tb.
Proof.
  intros Hscene Hz.
  destruct (getDirectTexts_pos d Hz) as (texts & Hget & Hall).
  rewrite Hscene, text_items_app in Hall. simpl in Hall.
  rewrite rev_app_distr in Hall. simpl in Hall.
  apply Forall2_app_inv_l in Hall. destruct Hall as (l1 & ta & H1 & Ha & ->).
  apply Forall2_app_inv_l in H1. destruct H1 as (tb & l2 & Hb & H2 & ->).
  inversion H2 as [|? td ? l3 Htd H3]; subst. inversion H3; subst.
  exists ta, tb, td. rewrite <- app_assoc in Hget. auto.
Qed.

(** Committing after the items after [a] were replaced by [mid]: the
    overlays of the items of [a] and [b] are those of before. *)
Lemma getDirectTexts_around (d d' : DirectTextDialog)
    (a b : list QGraphicsItem) (ta tb : list TextData) :
  direct_zoom d' = direct_zoom d -> pdf_height d' = pdf_height d ->
  (0 < direct_zoom d)%Q ->
  Forall2 (fun i t => direct_text_of_item d i = Some t) (rev (text_items a)) ta ->
  Forall2 (fun i t => direct_text_of_item d i = Some t) (rev (text_items b)) tb ->
  (scene d' = a ++ b -> getDirectTexts d' = Some (tb ++ ta))
  /\ (forall it' td',
        scene d' = a ++ TextItem it' :: b ->
        direct_text_of_item d it' = Some td' ->
        getDirectTexts d' = Some (tb ++ td' :: ta)).
Proof.
  intros Hzoom Hheight Hz Ha Hb.
  assert (Hz' : (0 < direct_zoom d')%Q) by now rewrite Hzoom.
  assert (Hext : forall l t,
             Forall2 (fun i t => direct_text_of_item d' i = Some t) l t ->
             Forall2 (fun i t => direct_text_of_item d i = Some t) l t).
  { intros l t H. eapply Forall2_impl; [|exact H]. simpl.
    intros i x Hi. now rewrite <- (direct_text_of_item_ext d d' i). }
  split.
  - intros Hscene.
    destruct (getDirectTexts_pos d' Hz') as (texts & Hget & Hall).
    rewrite Hget. f_equal.
    rewrite Hscene, text_items_app, rev_app_distr in Hall.
    apply Hext, Forall2_app_inv_l in Hall.
    destruct Hall as (tb' & ta' & Hb' & Ha' & ->).
    f_equal; eapply Forall2_Some_functional; eassumption.
  - intros it' td' Hscene Htd'.
    destruct (getDirectTexts_split d' a b it' Hscene Hz')
      as (ta' & tb' & td'' & Hget & Htd'' & Ha' & Hb').
    rewrite Hget.
    rewrite (direct_text_of_item_ext d d' it' Hzoom Hheight) in Htd''.
    assert (td'' = td') by congruence. subst td''.
    apply Hext in Ha'. apply Hext in Hb'.
    repeat f_equal; eapply Forall2_Some_functional; eassumption.
Qed.

(** X8: deleting a text item through its context menu removes its
    overlay, and only its overlay, from what the editor commits; the
    other overlays keep their order. *)
Theorem delete_text_drops_overlay (d : DirectTextDialog)
    (a b : list QGraphicsItem) (it : DirectTextItem) :
  scene d = a ++ TextItem it :: b ->
  (0 < direct_zoom d)%Q ->
  exists ta tb td,
    getDirectTexts d = Some (tb ++ td :: ta)
    /\ direct_text_of_item d it = Some td
    /\ getDirectTexts (contextMenuEvent (List.length a) DeleteText d)
       = Some (tb ++ ta).
Proof.
  intros Hscene Hz.
  destruct (getDirectTexts_split d a b it Hscene Hz)
    as (ta & tb & td & Hget & Htd & Ha & Hb).
  exists ta, tb, td. split; [exact Hget|]. split; [exact Htd|].
  unfold contextMenuEvent. rewrite Hscene, nth_error_length_app.
  apply (proj1 (getDirectTexts_around d (scene_removeItem (List.length a) d)
                  a b ta tb eq_refl eq_refl Hz Ha Hb)).
  unfold scene_removeItem. cbn [scene].
  now rewrite Hscene, firstn_length_app, skipn_S_length_app.
Qed.

Lemma delete_text_drops_overlay_witness :
  let a := [PixmapItem demo_image] in
  let it := {| pos_x := 100; pos_y := 200; toPlainText := "first";
               font := {| family := "Helvetica"; pointSize := 12 |};
               defaultTextColor := {| red := 0; green := 0; blue := 0 |} |} in
  let b := [TextItem {| pos_x := 300; pos_y := 400; toPlainText := "second";
                        font := {| family := "Courier"; pointSize := 10 |};
                        defaultTextColor := {| red := 255; green := 0; blue := 0 |} |}] in
  scene demo_dialog = a ++ TextItem it :: b
  /\ (0 < direct_zoom demo_dialog)%Q
  /\ exists ta tb td,
       getDirectTexts demo_dialog = Some (tb ++ td :: ta)
       /\ direct_text_of_item demo_dialog it = Some td
       /\ getDirectTexts (contextMenuEvent (List.length a) DeleteText demo_dialog)
          = Some (tb ++ ta).
Proof.
  intros a it b. split; [reflexivity|]. split; [reflexivity|].
  apply (delete_text_drops_overlay demo_dialog a b it); reflexivity.
Defined.





(* ------------------------------------------------------------------ *)
(** ** Dragging the dialog by its title bar *)

Lemma wrap_int_small (x : Z) : - 2 ^ 31 <= x < 2 ^ 31 -> wrap_int x = x.
Proof.
  intros H. unfold wrap_int.
  rewrite Z.mod_small by lia. lia.
Qed.

(** X11: while the left button is held, the window follows the mouse:
    after a press at [g0] and moves to [g1] and then [g2], its top left
    corner has moved by [g1 - g0] and then by [g2 - g0] in all, so the
    point of the bar that was grabbed stays under the cursor.  A move
    after the release, or without the left button, moves nothing. *)
Theorem title_bar_drag (t : DraggableTitleBar) (g0 g1 g2 : Z * Z) (buttons : Z) :
  on_desktop (window_topLeft t) ->
  on_desktop g0 -> on_desktop g1 -> on_desktop g2 ->
  Z.land buttons LeftButton <> 0 ->
  let pressed := mousePressEvent LeftButton g0 t in
  let moved := mouseMoveEvent buttons g1 pressed in
  let moved' := mouseMoveEvent buttons g2 moved in
  window_topLeft pressed = window_topLeft t
  /\ window_topLeft moved
     = (fst (window_topLeft t) + (fst g1 - fst g0),
        snd (window_topLeft t) + (snd g1 - snd g0))
  /\ window_topLeft moved'
     = (fst (window_topLeft t) + (fst g2 - fst g0),
        snd (window_topLeft t) + (snd g2 - snd g0))
  /\ mouseMoveEvent buttons g2 (mouseReleaseEvent moved) = mouseReleaseEvent moved
  /\ mouseMoveEvent (Z.land buttons (Z.lnot LeftButton)) g2 moved = moved.
Proof.
  intros [Hx Hy] [H0x H0y] [H1x H1y] [H2x H2y] Hleft.
  unfold mousePressEvent, mouseMoveEvent, mouseReleaseEvent, QPoint_sub.
  rewrite Z.eqb_refl. cbn [drag_pos window_topLeft fst snd].
  apply Z.eqb_neq in Hleft. rewrite Hleft.
  cbn [negb drag_pos window_topLeft fst snd].
  assert (Hoff : Z.land (Z.land buttons (Z.lnot LeftButton)) LeftButton = 0).
  { rewrite <- Z.land_assoc, (Z.land_comm (Z.lnot _)), Z.land_lnot_diag.
    apply Z.land_0_r. }
  rewrite Hoff. cbn [Z.eqb negb].
  rewrite !(wrap_int_small (fst g0 - fst (window_topLeft t))) by lia.
  rewrite !(wrap_int_small (snd g0 - snd (window_topLeft t))) by lia.
  rewrite !wrap_int_small by lia.
  repeat split; f_equal; lia.
Qed.

Lemma title_bar_drag_witness :
  let t := {| drag_pos := None; window_topLeft := (200, 150) |} in
  on_desktop (window_topLeft t)
  /\ on_desktop (260, 160) /\ on_desktop (300, 400) /\ on_desktop (-20, 90)
  /\ Z.land 3 LeftButton <> 0
  /\ let pressed := mousePressEvent LeftButton (260, 160) t in
     let moved := mouseMoveEvent 3 (300, 400) pressed in
     let moved' := mouseMoveEvent 3 (-20, 90) moved in
     window_topLeft pressed = window_topLeft t
     /\ window_topLeft moved
        = (fst (window_topLeft t) + (fst (300, 400) - fst (260, 160)),
           snd (window_topLeft t) + (snd (300, 400) - snd (260, 160)))
     /\ window_topLeft moved'
        = (fst (window_topLeft t) + (fst (-20, 90) - fst (260, 160)),
           snd (window_topLeft t) + (snd (-20, 90) - snd (260, 160)))
     /\ mouseMoveEvent 3 (-20, 90) (mouseReleaseEvent moved) = mouseReleaseEvent moved
     /\ mouseMoveEvent (Z.land 3 (Z.lnot LeftButton)) (-20, 90) moved = moved.
Proof.
  intros t.
  assert (Ht : on_desktop (window_topLeft t)) by (unfold on_desktop; simpl; lia).
  assert (H0 : on_desktop (260, 160)) by (unfold on_desktop; simpl; lia).
  assert (H1 : on_desktop (300, 400)) by (unfold on_desktop; simpl; lia).
  assert (H2 : on_desktop (-20, 90)) by (unfold on_desktop; simpl; lia).
  assert (Hb : Z.land 3 LeftButton <> 0) by (simpl; lia).
  split; [exact Ht|]. split; [exact H0|]. split; [exact H1|].
  split; [exact H2|]. split; [exact Hb|].
  exact (title_bar_drag t (260, 160) (300, 400) (-20, 90) 3 Ht H0 H1 H2 Hb).
Defined.

(* ------------------------------------------------------------------ *)
(** ** What an export writes *)

Section Output.
Context {W : World}.

Lemma exported_page_length (it : QListWidgetItem) :
  List.length (exported_page it) = if readable it then 1%nat else 0%nat.
Proof.
  unfold readable.
  destruct (read_src_page (item_data it)) as [p|] eqn:Hread.
  - destruct (exported_page_readable it p Hread) as [q ->]. reflexivity.
  - destruct (exported_page_unreadable it Hread) as [-> _]. reflexivity.
Qed.

Lemma exported_page_plain (it : QListWidgetItem) :
  direct_texts (item_data it) = [] ->
  exported_page it = source_page it /\
  page_messages it
  = if readable it then []
    else [ErrorReading (pdf_path (item_data it)) (page_number (item_data it) + 1)].
Proof.
  intros Hplain.
  unfold exported_page, page_messages, source_page, readable, export_page.
  destruct (read_src_page (item_data it)); [|split; reflexivity].
  rewrite Hplain. split; reflexivity.
Qed.

Lemma py_getitem_of_nat {A : Type} (l : list A) (k : nat) :
  py_getitem l (Z.of_nat k) = nth_error l k.
Proof.
  unfold py_getitem, py_len.
  assert (H0 : (Z.of_nat k <? 0) = false) by (apply Z.ltb_ge; lia).
  cbv zeta. rewrite !H0. cbn [orb].
  destruct (Z.leb_spec (Z.of_nat (List.length l)) (Z.of_nat k)).
  - symmetry. apply nth_error_None. lia.
  - now rewrite Nat2Z.id.
Qed.

Lemma flat_map_nth_error_seq {A : Type} (l : list A) :
  forall a,
    flat_map (fun k => match nth_error (a ++ l) k with
                       | Some p => [p]
                       | None => []
                       end)
             (seq (List.length a) (List.length l)) = l.
Proof.
  induction l as [|x l IH]; intros a; simpl; [reflexivity|].
  rewrite nth_error_length_app. simpl. f_equal.
  specialize (IH (a ++ [x])).
  rewrite <- app_assoc, length_app in IH. simpl in IH.
  now rewrite Nat.add_1_r in IH.
Qed.

(** The entries of one source, numbered by [ks] and without overlays,
    export the pages of the source at these numbers. *)
Lemma exported_pages_of_source (path : string) (pages : list page) :
  PdfReader path = Some pages ->
  forall ks new,
    map (fun it => page_number (item_data it)) new = map Z.of_nat ks ->
    Forall (fun it => pdf_path (item_data it) = path
                      /\ direct_texts (item_data it) = []) new ->
    flat_map exported_page new
    = flat_map (fun k => match nth_error pages k with
                         | Some p => [p]
                         | None => []
                         end) ks.
Proof.
  intros Hreader ks. induction ks as [|k ks IH]; intros [|it new] Hnum Hall;
    simpl in Hnum; try discriminate; [reflexivity|].
  injection Hnum as Hk Hnum. inversion Hall as [|? ? Hit Hall']; subst.
  destruct Hit as [Hpath Hplain].
  simpl. rewrite (IH new Hnum Hall'). f_equal.
  destruct (exported_page_plain it Hplain) as [-> _].
  unfold source_page, read_src_page.
  now rewrite Hpath, Hreader, Hk, py_getitem_of_nat.
Qed.

End Output.

(** X12: the number of pages an export adds to the output is the number
    of entries whose source page can be read; it never exceeds the
    number of entries. *)
Theorem export_pdf_page_count {W : World} (export_path : string) (self : MainWindow) :
  export_path <> "" ->
  exists r,
    export_pdf export_path self = Some r
    /\ pages_added r = List.length (filter readable (items (listWidget self)))
    /\ (pages_added r <= List.length (items (listWidget self)))%nat.
Proof.
  intros Hpath.
  destruct (export_pdf_spec export_path self Hpath) as (r & Hr & Hout & _).
  exists r. split; [exact Hr|].
  assert (Hcount : pages_added r
                   = List.length (filter readable (items (listWidget self)))).
  { unfold pages_added. rewrite Hout. clear Hr Hout.
    induction (items (listWidget self)) as [|it l IH]; simpl; [reflexivity|].
    rewrite length_app, IH, exported_page_length.
    destruct (readable it); reflexivity. }
  split; [exact Hcount|]. rewrite Hcount. apply filter_length_le.
Qed.

Lemma export_pdf_page_count_witness :
  let self := demo_window [demo_entry 0 "a.pdf" 0 []; demo_entry 1 "gone.pdf" 0 [];
                           demo_entry 2 "a.pdf" 7 []; demo_entry 3 "b.pdf" 0 [demo_hello]] 0 in
  "out.pdf" <> ""
  /\ exists r,
       export_pdf "out.pdf" self = Some r
       /\ pages_added r = List.length (filter readable (items (listWidget self)))
       /\ (pages_added r <= List.length (items (listWidget self)))%nat.
Proof.
  intros self. split; [discriminate|].
  apply (export_pdf_page_count "out.pdf" self). discriminate.
Defined.

(** X13: when no entry has overlays, an export is a plain concatenation:
    the output is made of the source pages as they were read, in the
    order of the list, nothing is merged onto them, and the only messages
    before the final one are those of the entries that cannot be read. *)
Theorem export_pdf_without_overlays {W : World}
    (export_path : string) (self : MainWindow) :
  export_path <> "" ->
  Forall (fun it => direct_texts (item_data it) = []) (items (listWidget self)) ->
  exists r,
    export_pdf export_path self = Some r
    /\ output r = flat_map source_page (items (listWidget self))
    /\ printed r
       = map (fun it => ErrorReading (pdf_path (item_data it))
                                     (page_number (item_data it) + 1))
             (filter (fun it => negb (readable it)) (items (listWidget self)))
         ++ [if written r then Exported export_path else ErrorExporting].
Proof.
  intros Hpath Hplain.
  destruct (export_pdf_spec export_path self Hpath) as (r & Hr & Hout & _ & Hpr).
  exists r. split; [exact Hr|].
  rewrite Hout, Hpr. clear Hr Hout Hpr.
  induction Hplain as [|it l Hit _ IH]; simpl; [split; reflexivity|].
  destruct (exported_page_plain it Hit) as [-> ->].
  destruct IH as [-> IH]. split; [reflexivity|].
  apply app_inv_tail in IH. rewrite IH.
  destruct (readable it); reflexivity.
Qed.

Lemma export_pdf_without_overlays_witness :
  let self := demo_window [demo_entry 0 "a.pdf" 1 []; demo_entry 1 "gone.pdf" 0 [];
                           demo_entry 2 "b.pdf" 0 []] 0 in
  "out.pdf" <> ""
  /\ Forall (fun it => direct_texts (item_data it) = []) (items (listWidget self))
  /\ exists r,
       export_pdf "out.pdf" self = Some r
       /\ output r = flat_map source_page (items (listWidget self))
       /\ printed r
          = map (fun it => ErrorReading (pdf_path (item_data it))
                                        (page_number (item_data it) + 1))
                (filter (fun it => negb (readable it)) (items (listWidget self)))
            ++ [if written r then Exported "out.pdf" else ErrorExporting].
Proof.
  intros self.
  assert (Hplain : Forall (fun it => direct_texts (item_data it) = [])
                          (items (listWidget self)))
    by (repeat constructor).
  split; [discriminate|]. split; [exact Hplain|].
  apply (export_pdf_without_overlays "out.pdf" self); [discriminate | exact Hplain].
Defined.

(** X14: the overlay layer of a page has exactly the size of the media
    box of the source page and holds, in list order and at their own
    coordinates, font and colour, the overlays that could be drawn; one
    message is printed for each overlay that could not. *)
Theorem draw_overlay_layer {W : World} (page_data : PageData) (src_page : page) :
  draw_overlay page_data src_page
  = ({| pk_pagesize := mediabox src_page;
        pk_runs := map overlay_run (filter overlay_draws (direct_texts page_data)) |},
     drawing_errors (direct_texts page_data)).
Proof. apply draw_overlay_spec. Qed.

(** X15: exporting right after adding a source whose pages PyPDF2 reads
    as PyMuPDF counted them extends the output by exactly the pages of
    the source, in their order. *)
Theorem add_pdf_then_export {W : World}
    (path export_path : string) (doc : list fitz_page) (images : list Image)
    (pages : list page) (self : MainWindow) :
  fitz_open path = Some doc ->
  convert_pdf_to_images path 1 = Some images ->
  PdfReader path = Some pages ->
  List.length pages = List.length doc ->
  export_path <> "" ->
  exists r0 r,
    export_pdf export_path self = Some r0
    /\ export_pdf export_path (fst (add_pdf [path] self)) = Some r
    /\ output r = output r0 ++ pages.
Proof.
  intros Hopen Hconv Hreader Hlen Hpath.
  destruct (export_pdf_spec export_path self Hpath) as (r0 & Hr0 & Hout0 & _).
  destruct (export_pdf_spec export_path (fst (add_pdf [path] self)) Hpath)
    as (r & Hr & Hout & _).
  exists r0, r. split; [exact Hr0|]. split; [exact Hr|].
  destruct (add_pdf_single path doc images self Hopen Hconv)
    as (new & Hitems & _ & Hnum & Hall & _).
  rewrite Hout, Hitems, flat_map_app, <- Hout0. f_equal.
  rewrite (exported_pages_of_source path pages Hreader _ new Hnum Hall).
  rewrite <- Hlen. apply (flat_map_nth_error_seq pages []).
Qed.

Lemma add_pdf_then_export_witness :
  let doc := [ {| dp_path := "a.pdf"; dp_index := 0; dp_layers := [] |};
               {| dp_path := "a.pdf"; dp_index := 1; dp_layers := [] |} ] in
  let self := demo_window [demo_entry 0 "b.pdf" 0 []] 0 in
  fitz_open "a.pdf" = Some doc
  /\ convert_pdf_to_images "a.pdf" 1 = Some [demo_image; demo_image]
  /\ PdfReader "a.pdf" = Some doc
  /\ List.length doc = List.length doc
  /\ "out.pdf" <> ""
  /\ exists r0 r,
       export_pdf "out.pdf" self = Some r0
       /\ export_pdf "out.pdf" (fst (add_pdf ["a.pdf"] self)) = Some r
       /\ output r = output r0 ++ doc.
Proof.
  intros doc self.
  split; [reflexivity|]. split; [reflexivity|]. split; [reflexivity|].
  split; [reflexivity|]. split; [discriminate|].
  apply (add_pdf_then_export (W:=demo_world) "a.pdf" "out.pdf" doc
           [demo_image; demo_image] doc self);
    [reflexivity | reflexivity | reflexivity | reflexivity | discriminate].
Defined.

(* ------------------------------------------------------------------ *)
(** ** Moving entries, again *)

(** X16: moving the current entry up and then down gives the window
    back, unless the entry is on the first row of a list of two or more
    entries, where moving up does nothing. *)
Theorem move_up_then_down (self : MainWindow) :
  valid_rows self ->
  0 < currentRow (listWidget self)
  \/ currentRow (listWidget self) = -1
  \/ count (listWidget self) <= 1 ->
  move_down (move_up self) = self.
Proof.
  intros Hvalid Hcond. unfold valid_rows in Hvalid.
  destruct (Z.lt_ge_cases 0 (currentRow (listWidget self))) as [Hpos|Hle].
  - destruct (current_row_has_previous self) as (a & y & x & b & ->); [lia|].
    rewrite move_up_split. apply move_down_split.
  - rewrite move_up_blocked by exact Hle.
    apply move_down_blocked. lia.
Qed.

Lemma move_up_then_down_witness :
  let self := demo_window [demo_entry 0 "a.pdf" 0 []; demo_entry 1 "a.pdf" 1 [demo_hello];
                           demo_entry 2 "b.pdf" 0 []] 2 in
  valid_rows self
  /\ (0 < currentRow (listWidget self)
      \/ currentRow (listWidget self) = -1
      \/ count (listWidget self) <= 1)
  /\ move_down (move_up self) = self.
Proof.
  intros self.
  assert (Hvalid : valid_rows self)
    by (subst self; unfold valid_rows, count, py_len; simpl; lia).
  assert (Hcond : 0 < currentRow (listWidget self)
                  \/ currentRow (listWidget self) = -1
                  \/ count (listWidget self) <= 1)
    by (left; simpl; lia).
  split; [exact Hvalid|]. split; [exact Hcond|].
  exact (move_up_then_down self Hvalid Hcond).
Defined.

(** X17: pressing Move Up as many times as there are entries before the
    current one brings it to the first row and keeps the order of all
    the others, and pressing once more changes nothing; likewise Move
    Down brings it to the last row. *)
Theorem move_to_the_ends (a b : list QListWidgetItem) (x : QListWidgetItem) (n : nat) :
  let self := {| listWidget := {| items := a ++ x :: b; currentRow := py_len a |};
                 next_id := n |} in
  let top := {| listWidget := {| items := x :: a ++ b; currentRow := 0 |};
                next_id := n |} in
  let bottom := {| listWidget := {| items := a ++ b ++ [x];
                                    currentRow := py_len a + py_len b |};
                   next_id := n |} in
  Nat.iter (List.length a) move_up self = top
  /\ move_up top = top
  /\ Nat.iter (List.length b) move_down self = bottom
  /\ move_down bottom = bottom.
Proof.
  cbv zeta. split; [|split; [|split]].
  - revert b. induction a as [|y a IH] using rev_ind; intros b; [reflexivity|].
    rewrite length_app. simpl. rewrite Nat.add_1_r, Nat.iter_succ_r.
    rewrite py_len_app, py_len_cons. change (py_len []) with 0.
    rewrite <- !app_assoc. simpl. rewrite move_up_split.
    apply (IH (y :: b)).
  - apply move_up_blocked. simpl. lia.
  - revert a. induction b as [|y b IH]; intros a.
    + simpl. rewrite Z.add_0_r. reflexivity.
    + cbn [List.length]. rewrite Nat.iter_succ_r, move_down_split.
      specialize (IH (a ++ [y])).
      rewrite py_len_app, py_len_cons in IH. change (py_len []) with 0 in IH.
      rewrite <- !app_assoc in IH. simpl in IH.
      rewrite IH, py_len_cons.
      do 2 f_equal. lia.
  - apply move_down_blocked. right. unfold count. cbn [listWidget items currentRow].
    rewrite !py_len_app, py_len_cons. change (py_len []) with 0. lia.
Qed.

(** X18: an export follows the order the moves have made: after moving
    the current entry down, its page comes after the page of the entry
    it has passed, and all other pages are where they were; and the same
    for moving up. *)
Theorem export_after_move {W : World}
    (export_path : string) (a b : list QListWidgetItem) (x y : QListWidgetItem)
    (n : nat) :
  export_path <> "" ->
  (exists r,
     export_pdf export_path
       (move_down {| listWidget := {| items := a ++ x :: y :: b;
                                      currentRow := py_len a |};
                     next_id := n |}) = Some r
     /\ output r = flat_map exported_page a ++ exported_page y
                   ++ exported_page x ++ flat_map exported_page b)
  /\ (exists r,
        export_pdf export_path
          (move_up {| listWidget := {| items := a ++ y :: x :: b;
                                       currentRow := py_len a + 1 |};
                      next_id := n |}) = Some r
        /\ output r = flat_map exported_page a ++ exported_page x
                      ++ exported_page y ++ flat_map exported_page b).
Proof.
  intros Hpath. rewrite move_down_split, move_up_split. split.
  - match goal with
    | |- context [export_pdf _ ?s] =>
        destruct (export_pdf_spec export_path s Hpath) as (r & Hr & Hout & _)
    end.
    exists r. split; [exact Hr|]. rewrite Hout. cbn [listWidget items].
    rewrite flat_map_app. cbn [flat_map]. now rewrite <- ?app_assoc.
  - match goal with
    | |- context [export_pdf _ ?s] =>
        destruct (export_pdf_spec export_path s Hpath) as (r & Hr & Hout & _)
    end.
    exists r. split; [exact Hr|]. rewrite Hout. cbn [listWidget items].
    rewrite flat_map_app. cbn [flat_map]. now rewrite <- ?app_assoc.
Qed.

Lemma export_after_move_witness :
  let a := [demo_entry 0 "a.pdf" 0 []] in
  let b := [demo_entry 3 "gone.pdf" 0 []] in
  let x := demo_entry 1 "a.pdf" 1 [demo_hello] in
  let y := demo_entry 2 "b.pdf" 0 [] in
  "out.pdf" <> ""
  /\ (exists r,
        export_pdf "out.pdf"
          (move_down {| listWidget := {| items := a ++ x :: y :: b;
                                         currentRow := py_len a |};
                        next_id := 4 |}) = Some r
        /\ output r = flat_map exported_page a ++ exported_page y
                      ++ exported_page x ++ flat_map exported_page b)
  /\ (exists r,
        export_pdf "out.pdf"
          (move_up {| listWidget := {| items := a ++ y :: x :: b;
                                       currentRow := py_len a + 1 |};
                      next_id := 4 |}) = Some r
        /\ output r = flat_map exported_page a ++ exported_page x
                      ++ exported_page y ++ flat_map exported_page b).
Proof.
  intros a b x y. split; [discriminate|].
  apply (export_after_move (W:=demo_world) "out.pdf" a b x y 4). discriminate.
Defined.

(* ------------------------------------------------------------------ *)
(** ** Editing the overlays of a page *)

Lemma run_event_keeps_frame (d : DirectTextDialog) (e : EditorEvent) :
  direct_zoom (run_event d e) = direct_zoom d
  /\ pdf_height (run_event d e) = pdf_height d.
Proof.
  destruct e as [|n px py|n text|n action]; simpl.
  - split; reflexivity.
  - destruct (nth_error (scene d) n) as [[im|it]|]; split; reflexivity.
  - destruct (nth_error (scene d) n) as [[im|it]|]; split; reflexivity.
  - unfold contextMenuEvent.
    destruct (nth_error (scene d) n) as [[im|it]|]; try (split; reflexivity).
    destruct action as [f [|]|[c|]| |]; split; reflexivity.
Qed.

Lemma run_events_keep_frame (events : list EditorEvent) :
  forall d,
    direct_zoom (run_events events d) = direct_zoom d
    /\ pdf_height (run_events events d) = pdf_height d.
Proof.
  unfold run_events.
  induction events as [|e events IH]; intros d; simpl; [split; reflexivity|].
  destruct (IH (run_event d e)) as [-> ->]. apply run_event_keeps_frame.
Qed.

Lemma text_items_nil_nth (l : list QGraphicsItem) (n : nat) (it : DirectTextItem) :
  text_items l = [] -> nth_error l n <> Some (TextItem it).
Proof.
  revert n. induction l as [|[im|it'] l IH]; intros [|n] Hnil; simpl in *;
    try discriminate; auto.
Qed.

(** Without a click on the button adding a text, the scene never holds a
    text item. *)
Lemma run_events_no_text (events : list EditorEvent) :
  Forall (fun e => e <> AddTextClicked) events ->
  forall d, text_items (scene d) = [] ->
            text_items (scene (run_events events d)) = [].
Proof.
  unfold run_events.
  induction 1 as [|e events He _ IH]; intros d Hnil; simpl; [exact Hnil|].
  apply IH.
  destruct e as [|n px py|n text|n action]; simpl; [congruence| | |];
    unfold contextMenuEvent;
    destruct (nth_error (scene d) n) as [[im|it]|] eqn:Hn; try exact Hnil;
    exfalso; exact (text_items_nil_nth _ _ it Hnil Hn).
Qed.

Lemma item_Some_split (w : QListWidget) (row : Z) (it : QListWidgetItem) :
  item w row = Some it ->
  exists a b, items w = a ++ it :: b /\ py_len a = row.
Proof.
  unfold item. destruct ((row <? 0) || (count w <=? row)) eqn:Hout; [discriminate|].
  apply orb_false_iff in Hout. destruct Hout as [H0 _]. apply Z.ltb_ge in H0.
  intros Hnth. destruct (nth_error_split _ _ Hnth) as (a & b & Hl & Hlen).
  exists a, b. split; [exact Hl|]. unfold py_len. rewrite Hlen. lia.
Qed.

Section Editing.
Context {W : World} {R : Rasterizer}.

Lemma setData_split (a b : list QListWidgetItem) (it : QListWidgetItem)
    (page_data : PageData) (cur : Z) :
  setData (py_len a) page_data {| items := a ++ it :: b; currentRow := cur |}
  = {| items := a ++ {| item_id := item_id it; item_data := page_data |} :: b;
       currentRow := cur |}.
Proof.
  unfold setData. rewrite item_split. cbn [items currentRow].
  now rewrite to_nat_py_len, firstn_length_app, skipn_S_length_app.
Qed.

Lemma DirectTextDialog_init_spec (path : string) (n : Z) (zoom : Q)
    (d : DirectTextDialog) :
  DirectTextDialog_init path n zoom = Some d ->
  direct_zoom d = zoom /\ text_items (scene d) = [].
Proof.
  unfold DirectTextDialog_init.
  destruct (convert_pdf_page_to_image path n zoom) as [[[img w] h]|];
    [|discriminate].
  intros [= <-]. split; reflexivity.
Qed.

End Editing.

(** X19: closing the editor with OK replaces the overlays of the page
    that was double-clicked by what the editor commits, which never
    raises as the editor is opened at zoom 2, and changes nothing else:
    the other entries, the order, the source and page number of the
    entry and the current row stay; closing it with Cancel leaves the
    window as it is. *)
Theorem open_direct_text_dialog_sets_overlays {W : World} {R : Rasterizer}
    (row : Z) (events : list EditorEvent) (self : MainWindow)
    (it : QListWidgetItem) (dialog : DirectTextDialog) :
  item (listWidget self) row = Some it ->
  DirectTextDialog_init (pdf_path (item_data it)) (page_number (item_data it)) 2
  = Some dialog ->
  exists texts a b,
    getDirectTexts (run_events events dialog) = Some texts
    /\ items (listWidget self) = a ++ it :: b
    /\ py_len a = row
    /\ open_direct_text_dialog row events true self
       = Some {| listWidget :=
                   {| items := a ++ {| item_id := item_id it;
                                       item_data :=
                                         {| pdf_path := pdf_path (item_data it);
                                            page_number := page_number (item_data it);
                                            pixmap := pixmap (item_data it);
                                            direct_texts := texts |} |} :: b;
                      currentRow := currentRow (listWidget self) |};
                 next_id := next_id self |}
    /\ open_direct_text_dialog row events false self = Some self.
Proof.
  intros Hitem Hinit.
  destruct (DirectTextDialog_init_spec _ _ _ _ Hinit) as [Hzoom _].
  destruct (run_events_keep_frame events dialog) as [Hz _].
  assert (Hpos : (0 < direct_zoom (run_events events dialog))%Q)
    by (rewrite Hz, Hzoom; reflexivity).
  destruct (getDirectTexts_pos _ Hpos) as (texts & Hget & _).
  destruct (item_Some_split _ _ _ Hitem) as (a & b & Hl & Hrow).
  exists texts, a, b. split; [exact Hget|]. split; [exact Hl|]. split; [exact Hrow|].
  unfold open_direct_text_dialog. rewrite Hitem, Hinit, Hget.
  split; [|reflexivity].
  destruct self as [[l cur] n]. cbn [listWidget items currentRow next_id] in *.
  subst l row. unfold with_listWidget. cbn [next_id].
  now rewrite setData_split.
Qed.

Lemma open_direct_text_dialog_sets_overlays_witness :
  let it := demo_entry 1 "a.pdf" 1 [demo_hello] in
  let self := demo_window [demo_entry 0 "a.pdf" 0 []; it] 0 in
  let dialog := {| direct_zoom := 2; pdf_width := 612; pdf_height := 792;
                   scene := [PixmapItem demo_image] |} in
  let events := [AddTextClicked; ItemMoved 1 100 200; TextEdited 1 "note"] in
  item (listWidget self) 1 = Some it
  /\ DirectTextDialog_init (pdf_path (item_data it)) (page_number (item_data it)) 2
     = Some dialog
  /\ exists texts a b,
       getDirectTexts (run_events events dialog) = Some texts
       /\ items (listWidget self) = a ++ it :: b
       /\ py_len a = 1
       /\ open_direct_text_dialog 1 events true self
          = Some {| listWidget :=
                      {| items := a ++ {| item_id := item_id it;
                                          item_data :=
                                            {| pdf_path := pdf_path (item_data it);
                                               page_number := page_number (item_data it);
                                               pixmap := pixmap (item_data it);
                                               direct_texts := texts |} |} :: b;
                         currentRow := currentRow (listWidget self) |};
                    next_id := next_id self |}
       /\ open_direct_text_dialog 1 events false self = Some self.
Proof.
  intros it self dialog events.
  split; [reflexivity|]. split; [reflexivity|].
  apply (open_direct_text_dialog_sets_overlays (W:=demo_world) (R:=demo_rasterizer)
           1 events self it dialog); reflexivity.
Defined.

(** X20: the editor never shows the overlays a page already has: it
    opens on the image of the page alone, so closing it with OK without
    having clicked the button adding a text leaves the page without
    overlays, whatever overlays it had. *)
Theorem open_direct_text_dialog_clears_overlays {W : World} {R : Rasterizer}
    (row : Z) (events : list EditorEvent) (self : MainWindow)
    (it : QListWidgetItem) (dialog : DirectTextDialog) :
  item (listWidget self) row = Some it ->
  DirectTextDialog_init (pdf_path (item_data it)) (page_number (item_data it)) 2
  = Some dialog ->
  Forall (fun e => e <> AddTextClicked) events ->
  exists self',
    open_direct_text_dialog row events true self = Some self'
    /\ option_map (fun i => direct_texts (item_data i)) (item (listWidget self') row)
       = Some [].
Proof.
  intros Hitem Hinit Hnoadd.
  destruct (DirectTextDialog_init_spec _ _ _ _ Hinit) as [_ Hnil].
  pose proof (run_events_no_text events Hnoadd dialog Hnil) as Hnil'.
  pose proof (getDirectTexts_no_text _ Hnil') as Hempty.
  destruct (item_Some_split _ _ _ Hitem) as (a & b & Hl & Hrow).
  unfold open_direct_text_dialog. rewrite Hitem, Hinit, Hempty.
  eexists. split; [reflexivity|].
  destruct self as [[l cur] n]. cbn [listWidget items currentRow next_id] in *.
  subst l row. unfold with_listWidget. cbn [listWidget].
  now rewrite setData_split, item_split.
Qed.

Lemma open_direct_text_dialog_clears_overlays_witness :
  let it := demo_entry 1 "a.pdf" 1 [demo_hello; demo_unknown_font] in
  let self := demo_window [demo_entry 0 "a.pdf" 0 []; it] 0 in
  let dialog := {| direct_zoom := 2; pdf_width := 612; pdf_height := 792;
                   scene := [PixmapItem demo_image] |} in
  item (listWidget self) 1 = Some it
  /\ DirectTextDialog_init (pdf_path (item_data it)) (page_number (item_data it)) 2
     = Some dialog
  /\ Forall (fun e => e <> AddTextClicked) [ContextMenu 0 DeleteText]
  /\ exists self',
       open_direct_text_dialog 1 [ContextMenu 0 DeleteText] true self = Some self'
       /\ option_map (fun i => direct_texts (item_data i)) (item (listWidget self') 1)
          = Some [].
Proof.
  intros it self dialog.
  assert (Hev : Forall (fun e => e <> AddTextClicked) [ContextMenu 0 DeleteText])
    by (repeat constructor; discriminate).
  split; [reflexivity|]. split; [reflexivity|]. split; [exact Hev|].
  apply (open_direct_text_dialog_clears_overlays (W:=demo_world) (R:=demo_rasterizer)
           1 [ContextMenu 0 DeleteText] self it dialog);
    [reflexivity | reflexivity | exact Hev].
Defined.

(* ------------------------------------------------------------------ *)
(** ** A page with overlays, and the messages of a run *)

Lemma filter_all {A : Type} (f : A -> bool) (l : list A) :
  forallb f l = true ->
  filter f l = l /\ filter (fun x => negb (f x)) l = [].
Proof.
  induction l as [|x l IH]; simpl; [split; reflexivity|].
  intros H. apply andb_true_iff in H. destruct H as [Hx Hl].
  destruct (IH Hl) as [-> ->]. now rewrite Hx.
Qed.

Lemma page_messages_are_warnings {W : World} (it : QListWidgetItem) :
  Forall (fun m => forall path, m <> Exported path /\ m <> ErrorExporting)
         (page_messages it).
Proof.
  assert (Hdraw : forall texts,
             Forall (fun m => forall path, m <> Exported path /\ m <> ErrorExporting)
                    (drawing_errors texts)).
  { intros texts. unfold drawing_errors. apply Forall_map, Forall_forall.
    intros td _ path. split; discriminate. }
  unfold page_messages, export_page.
  destruct (read_src_page (item_data it)) as [src_page|];
    [|repeat constructor; discriminate].
  destruct (direct_texts (item_data it)) as [|td texts] eqn:E; [constructor|].
  rewrite draw_overlay_spec, E.
  destruct (merge_overlay _ src_page); cbn [snd]; [apply Hdraw|].
  apply Forall_app. split; [apply Hdraw|].
  repeat constructor; discriminate.
Qed.

(** X21: a page whose source can be read, whose overlays all draw and
    whose merge goes through is exported as the source page merged with
    one layer of the size of its media box holding all the overlays, in
    list order and at the coordinates they were committed with; nothing
    is printed for it. *)
Theorem export_page_with_overlays {W : World}
    (page_data : PageData) (src_page merged : page) :
  read_src_page page_data = Some src_page ->
  direct_texts page_data <> [] ->
  forallb overlay_draws (direct_texts page_data) = true ->
  merge_overlay {| pk_pagesize := mediabox src_page;
                   pk_runs := map overlay_run (direct_texts page_data) |}
                src_page = Some merged ->
  export_page page_data = (Some merged, []).
Proof.
  intros Hread Htexts Hdraws Hmerge. unfold export_page. rewrite Hread.
  destruct (direct_texts page_data) as [|td texts] eqn:E; [contradiction|].
  rewrite draw_overlay_spec, E. unfold drawing_errors.
  destruct (filter_all overlay_draws (td :: texts) Hdraws) as [-> ->].
  now rewrite Hmerge.
Qed.

Lemma export_page_with_overlays_witness :
  let page_data := item_data (demo_entry 0 "a.pdf" 1 [demo_hello]) in
  let src_page := {| dp_path := "a.pdf"; dp_index := 1; dp_layers := [] |} in
  let merged := {| dp_path := "a.pdf"; dp_index := 1;
                   dp_layers := [ {| pk_pagesize := (612, 792)%Q;
                                     pk_runs := [overlay_run demo_hello] |} ] |} in
  read_src_page page_data = Some src_page
  /\ direct_texts page_data <> []
  /\ forallb overlay_draws (direct_texts page_data) = true
  /\ merge_overlay {| pk_pagesize := mediabox src_page;
                      pk_runs := map overlay_run (direct_texts page_data) |}
                   src_page = Some merged
  /\ export_page page_data = (Some merged, []).
Proof.
  intros page_data src_page merged.
  split; [reflexivity|]. split; [discriminate|]. split; [reflexivity|].
  split; [reflexivity|].
  apply (export_page_with_overlays (W:=demo_world) page_data src_page merged);
    [reflexivity | discriminate | reflexivity | reflexivity].
Defined.

(** X22: a run prints the success message exactly when the file was
    written, and the failure message exactly when it was not; either is
    the last message printed, and no page prints one of them. *)
Theorem export_pdf_final_message {W : World} (export_path : string) (self : MainWindow) :
  export_path <> "" ->
  exists r,
    export_pdf export_path self = Some r
    /\ (In (Exported export_path) (printed r) <-> written r = true)
    /\ (In ErrorExporting (printed r) <-> written r = false)
    /\ last (printed r) ErrorExporting
       = (if written r then Exported export_path else ErrorExporting).
Proof.
  intros Hpath.
  destruct (export_pdf_spec export_path self Hpath) as (r & Hr & _ & _ & Hpr).
  exists r. split; [exact Hr|]. rewrite Hpr. clear Hr Hpr.
  assert (Hpages : Forall (fun m => forall path, m <> Exported path /\ m <> ErrorExporting)
                          (flat_map page_messages (items (listWidget self)))).
  { induction (items (listWidget self)) as [|it l IH]; simpl; [constructor|].
    apply Forall_app. split; [apply page_messages_are_warnings | exact IH]. }
  rewrite Forall_forall in Hpages.
  split; [|split].
  - rewrite in_app_iff. split.
    + intros [Hin|Hin].
      * exfalso. exact (proj1 (Hpages _ Hin export_path) eq_refl).
      * destruct (written r); [reflexivity|].
        destruct Hin as [Hin|[]]. discriminate.
    + intros ->. right. now left.
  - rewrite in_app_iff. split.
    + intros [Hin|Hin].
      * exfalso. exact (proj2 (Hpages _ Hin export_path) eq_refl).
      * destruct (written r); [|reflexivity].
        destruct Hin as [Hin|[]]. discriminate.
    + intros ->. right. now left.
  - apply last_last.
Qed.

Lemma export_pdf_final_message_witness :
  let self := demo_window [demo_entry 0 "gone.pdf" 0 [];
                           demo_entry 1 "b.pdf" 0 [demo_unknown_font]] 0 in
  "/readonly/out.pdf" <> ""
  /\ exists r,
       export_pdf "/readonly/out.pdf" self = Some r
       /\ (In (Exported "/readonly/out.pdf") (printed r) <-> written r = true)
       /\ (In ErrorExporting (printed r) <-> written r = false)
       /\ last (printed r) ErrorExporting
          = (if written r then Exported "/readonly/out.pdf" else ErrorExporting).
Proof.
  intros self. split; [discriminate|].
  apply (export_pdf_final_message "/readonly/out.pdf" self). discriminate.
Defined.
